(** * NewsMind: a shallow embedding of the ingestion and retrieval core

    Python values are modelled as follows.
    - A Python [str] is a list of Unicode code points ([list Z]).
    - A Python [float] (and a numpy float64 scalar) is a primitive IEEE
      binary64 value ([PrimFloat.float]).
    - A call that can raise returns a [res]: [Ret v] or [Raise e].
    - External services (OpenAI, NewsAPI, newspaper3k, the sentence
      transformer) are oracles passed as arguments; an oracle answer
      [None] stands for the call raising.
    - The SQLAlchemy session is explicit state: lists of rows, updated
      only at [db.session.commit()]. *)

From Stdlib Require Import ZArith List Bool String Ascii PrimFloat Sorted Lia.
Import ListNotations.
Open Scope Z_scope.

(** ** Python strings and exceptions *)

Definition str := list Z.

(** The code points of an ASCII string literal. *)
Definition lit (s : string) : str :=
  map (fun a => Z.of_nat (nat_of_ascii a)) (list_ascii_of_string s).

(** [str.isspace] for one code point (Python's [Py_UNICODE_ISSPACE]). *)
Definition py_isspace (c : Z) : bool :=
  ((9 <=? c) && (c <=? 13)) || ((28 <=? c) && (c <=? 32)) ||
  (c =? 133) || (c =? 160) || (c =? 5760) ||
  ((8192 <=? c) && (c <=? 8202)) || (c =? 8232) || (c =? 8233) ||
  (c =? 8239) || (c =? 8287) || (c =? 12288).

(** Truthiness of a string: [not s] holds exactly for [""]. *)
Definition truthy (s : str) : bool :=
  match s with [] => false | _ => true end.

Fixpoint lstrip (s : str) : str :=
  match s with
  | c :: s' => if py_isspace c then lstrip s' else s
  | [] => []
  end.

(** [s.strip()] *)
Definition strip (s : str) : str := rev (lstrip (rev (lstrip s))).

(** [s.lower()] on the ASCII letters; other code points are kept. *)
Definition py_lower (s : str) : str :=
  map (fun c => if (65 <=? c) && (c <=? 90) then c + 32 else c) s.

Fixpoint str_eqb (a b : str) : bool :=
  match a, b with
  | [], [] => true
  | x :: a', y :: b' => (x =? y) && str_eqb a' b'
  | _, _ => false
  end.

Fixpoint is_prefix (p s : str) : bool :=
  match p, s with
  | [], _ => true
  | x :: p', y :: s' => (x =? y) && is_prefix p' s'
  | _, [] => false
  end.

(** [sub in s] *)
Fixpoint py_contains (sub s : str) : bool :=
  is_prefix sub s ||
  match s with [] => false | _ :: s' => py_contains sub s' end.

(** [s.replace(old, new)] for a non-empty [old]: a left-to-right scan
    replacing non-overlapping occurrences.  Each step consumes at least
    one code point, so [length s + 1] steps suffice. *)
Fixpoint replace_fuel (fuel : nat) (old new s : str) : str :=
  match fuel with
  | O => s
  | S fuel' =>
      match s with
      | [] => []
      | c :: s' =>
          if is_prefix old s
          then new ++ replace_fuel fuel' old new (skipn (List.length old) s)
          else c :: replace_fuel fuel' old new s'
      end
  end.

Definition py_replace (s old new : str) : str :=
  replace_fuel (S (List.length s)) old new s.

Inductive exn : Type :=
| RuntimeError (msg : str)
| BaseException (msg : str)
| NotFound.

(** The outcome of a Python call: a value or a raised exception. *)
Inductive res (A : Type) : Type :=
| Ret (a : A)
| Raise (e : exn).
Arguments Ret {A} a.
Arguments Raise {A} e.

(** An environment variable read with [os.getenv]: [None] when unset.
    [not KEY] holds when it is unset or empty. *)
Definition env_set (v : option str) : bool :=
  match v with Some s => truthy s | None => false end.

(** ** modules/embedding_manager.py *)

Definition float := PrimFloat.float.

(** A stored embedding text.  [EJson xs] is the text [json.dumps(xs)] of a
    flat list of floats (what [generate_embedding] writes); [EText s] is a
    text [s] that [json.loads] rejects. *)
Inductive emb : Type :=
| EJson (xs : list float)
| EText (s : str).

(** The empty-vector sentinel [json.dumps([])], i.e. the text ["[]"]. *)
Definition sentinel : emb := EJson [].

(** Truthiness of the stored text: only [""] is falsy ([EJson] texts
    always start with a bracket). *)
Definition emb_truthy (e : emb) : bool :=
  match e with EJson _ => true | EText s => truthy s end.

(** [text == "[]"] on embedding texts. *)
Definition is_sentinel (e : emb) : bool :=
  match e with EJson [] => true | _ => false end.

(** [generate_embedding(text)]; [encode] is [get_model().encode(..).tolist()]. *)
Definition generate_embedding (encode : str -> list float) (text : str) : emb :=
  if negb (truthy text) || negb (truthy (strip text)) then sentinel
  else EJson (encode text).

(** [np.array(json.loads(v))]: [None] when [json.loads] raises. *)
Definition json_loads (e : emb) : option (list float) :=
  match e with EJson xs => Some xs | EText _ => None end.

(** [np.dot] on two 1-D float arrays: the sum of the products, added left
    to right; arrays of different lengths raise [ValueError] ([None]). *)
Definition np_dot (v1 v2 : list float) : option float :=
  if Nat.eqb (List.length v1) (List.length v2)
  then Some (fold_left (fun acc p => PrimFloat.add acc (PrimFloat.mul (fst p) (snd p)))
                       (combine v1 v2) 0%float)
  else None.

(** [np.linalg.norm(v)] for a 1-D array: [sqrt(v.dot(v))]. *)
Definition np_norm (v : list float) : float :=
  match np_dot v v with Some d => PrimFloat.sqrt d | None => 0%float end.

(** [compute_similarity(vec1, vec2)]; every exception inside the [try]
    ends in [return 0.0]. *)
Definition compute_similarity (vec1 vec2 : emb) : float :=
  match json_loads vec1, json_loads vec2 with
  | Some v1, Some v2 =>
      if Nat.eqb (List.length v1) 0 || Nat.eqb (List.length v2) 0 then 0%float
      else match np_dot v1 v2 with
           | Some d => PrimFloat.div d (PrimFloat.mul (np_norm v1) (np_norm v2))
           | None => 0%float
           end
  | _, _ => 0%float
  end.

(** ** modules/summarizer.py *)

Definition nl : str := [10].
Definition dq : str := [34].

Definition summary_unavailable : str := lit "Summary unavailable.".
Definition label_positive : str := lit "positive".
Definition label_neutral : str := lit "neutral".
Definition label_negative : str := lit "negative".

(** The f-string prompt of [summarize_article] (its fixed instruction text,
    with the indentation of the source left out). *)
Definition summary_prompt (title safe_text : str) : str :=
  lit "You are a professional news summarization assistant." ++ nl ++ nl ++
  lit "Summarize the article below into **2-3 concise bullet points**, " ++
  lit "focusing only on the factual content. " ++
  lit "Avoid personal opinions, speculation, or emotional wording." ++ nl ++ nl ++
  lit "Each bullet MUST be on its own line and begin with a hyphen (" ++ dq ++
  lit "- " ++ dq ++ lit "). Do NOT combine multiple bullet points into one line." ++ nl ++
  lit "The summary should be:" ++ nl ++ lit "- factual" ++ nl ++ lit "- concise" ++ nl ++
  lit "- neutral in tone, written clear, plain" ++ nl ++ nl ++
  lit "Title: " ++ title ++ nl ++ nl ++
  lit "Article Content:" ++ nl ++ safe_text ++ nl.

(** The f-string prompt of [analyze_sentiment]. *)
Definition sentiment_prompt (summary_text : str) : str :=
  lit "Determine the sentiment of the news summary below." ++ nl ++ nl ++
  lit "Respond with ONLY one of the following words:" ++ nl ++
  lit "- positive" ++ nl ++ lit "- neutral" ++ nl ++ lit "- negative" ++ nl ++ nl ++
  lit "Summary:" ++ nl ++ summary_text ++ nl.

(** [while "\n\n-" in s: s = s.replace("\n\n-", "\n-")]; every pass
    shortens [s], so [length s + 1] passes suffice. *)
Fixpoint collapse_fuel (fuel : nat) (s : str) : str :=
  match fuel with
  | O => s
  | S fuel' =>
      if py_contains [10; 10; 45] s
      then collapse_fuel fuel' (py_replace s [10; 10; 45] [10; 45])
      else s
  end.

(** The post-processing of the model's answer in [summarize_article]. *)
Definition clean_summary (summary : str) : str :=
  let cleaned := py_replace (py_replace summary (lit ". - ") (nl ++ lit ". - "))
                            [8226] (lit "- ") in
  strip (collapse_fuel (S (List.length cleaned)) cleaned).

(** [summarize_article(title, text)].  [openai_key] is [OPENAI_API_KEY];
    [chat prompt] is [client.chat.completions.create(..)] followed by
    [.choices[0].message.content], [None] when any of it raises. *)
Definition summarize_article (openai_key : option str) (chat : str -> option str)
    (title text : str) : res str :=
  if negb (env_set openai_key)
  then Raise (BaseException (lit "OpenAI API key not set."))
  else
    let safe_text := firstn 6000 text in
    match chat (summary_prompt title safe_text) with
    | Some content => Ret (clean_summary (strip content))
    | None => Ret summary_unavailable
    end.

(** [sentiment not in ["positive", "neutral", "negative"]] *)
Definition is_label (s : str) : bool :=
  str_eqb s label_positive || str_eqb s label_neutral || str_eqb s label_negative.

(** [analyze_sentiment(summary_text)]: the whole call sits in a [try]. *)
Definition analyze_sentiment (chat : str -> option str) (summary_text : str) : res str :=
  match chat (sentiment_prompt summary_text) with
  | Some content =>
      let sentiment := py_lower (strip content) in
      if negb (is_label sentiment) then Ret label_neutral else Ret sentiment
  | None => Ret label_neutral
  end.

(** ** models.py and the database session *)

(** [published_at = item.get("publishedAt") or datetime.utcnow()]: either the
    provider's string or a time read from the clock. *)
Inductive published : Type :=
| PubStr (s : str)
| PubTime (t : Z).

(** A row of [articles]. *)
Record article : Type := mkArticle {
  a_title : str;
  a_author : str;
  a_source : str;
  a_url : str;
  a_category : str;
  a_published_at : published;
  a_fetched_at : Z;
  a_summary : option str;
  a_sentiment : option str;
  a_embedding : option emb
}.

(** A row of [user_articles]; [ua_action] is the JSON text of the list of
    action tags, kept as the list itself. *)
Record user_article : Type := mkUserArticle {
  ua_user_id : Z;
  ua_article_id : Z;
  ua_action : list str;
  ua_rating : option Z;
  ua_notes : option str;
  ua_timestamp : Z
}.

(** A row of [chat_history]. *)
Record chat_history : Type := mkChat {
  ch_role : str;
  ch_message : str;
  ch_timestamp : Z;
  ch_user_id : Z;
  ch_article_id : option Z
}.

(** Which step of the enrichment chain ran, and for which item URL. *)
Inductive stage : Type := SExtract | SSummarize | SSentiment | SEmbed.

(** Calls to external services, in the order they are made. *)
Inductive event : Type :=
| EvNewsRequest (topic : str)
| EvStage (st : stage) (url : str).

(** The committed database, the clock read by [datetime.utcnow()] (each
    read advances it) and the trace of external calls. *)
Record state : Type := mkState {
  st_articles : list article;
  st_user_articles : list user_article;
  st_chat : list chat_history;
  st_clock : Z;
  st_trace : list event
}.

(** A state-and-exception monad: an exception keeps the state reached so
    far, since committed rows stay committed. *)
Definition M (A : Type) : Type := state -> res A * state.

Definition ret {A : Type} (a : A) : M A := fun s => (Ret a, s).

Definition bind {A B : Type} (m : M A) (k : A -> M B) : M B :=
  fun s => match m s with
           | (Ret a, s') => k a s'
           | (Raise e, s') => (Raise e, s')
           end.

Notation "x <- m ;; k" := (bind m (fun x => k))
  (at level 61, m at next level, right associativity).
Notation "m ;;; k" := (bind m (fun _ => k))
  (at level 61, right associativity).

Definition raise {A : Type} (e : exn) : M A := fun s => (Raise e, s).

Definition lift {A : Type} (r : res A) : M A := fun s => (r, s).

Definition utcnow : M Z :=
  fun s => (Ret (st_clock s),
            mkState (st_articles s) (st_user_articles s) (st_chat s)
                    (Z.succ (st_clock s)) (st_trace s)).

Definition emit (ev : event) : M unit :=
  fun s => (Ret tt,
            mkState (st_articles s) (st_user_articles s) (st_chat s)
                    (st_clock s) (st_trace s ++ [ev])).

Definition get_articles : M (list article) := fun s => (Ret (st_articles s), s).

(** [Article.query.filter_by(url=url).first()] is not [None]. *)
Definition url_exists (url : str) (arts : list article) : bool :=
  existsb (fun a => str_eqb (a_url a) url) arts.

(** [db.session.add(article); db.session.commit()]: the commit enforces the
    [unique=True] constraint on [Article.url] (the other non-null columns are
    always filled by the callers); on a violation it raises and the caller's
    [except] branch rolls the row back, which [Ret false] reports. *)
Definition commit_article (a : article) : M bool :=
  fun s =>
    if url_exists (a_url a) (st_articles s)
    then (Ret false, s)
    else (Ret true,
          mkState (st_articles s ++ [a]) (st_user_articles s) (st_chat s)
                  (st_clock s) (st_trace s)).

(** ** modules/news_fetcher.py *)

(** A JSON field read with [.get(key, default)]: missing, [null] or a string. *)
Inductive jfield : Type :=
| JMissing
| JNull
| JStr (s : str).

(** An entry of the NewsAPI [articles] list; for the [option] fields [None]
    is a missing key or a JSON [null] ([item.get(key)] is [None] for both). *)
Record item : Type := mkItem {
  i_author : option str;
  i_title : option str;
  i_url : option str;
  i_source_name : jfield;
  i_published_at : option str
}.

(** The outcome of [requests.get(..); response.raise_for_status();
    response.json()]: [TransportError] is any exception raised there
    (connection error, timeout, non-2xx status, non-JSON body). *)
Inductive news_response : Type :=
| TransportError
| Body (status : option str) (message : option str) (articles : list item).

(** The outside world of the process: environment variables and the
    external services, as functions of their inputs. *)
Record env : Type := mkEnv {
  news_api_key : option str;
  openai_api_key : option str;
  newsapi_get : str -> str -> Z -> news_response;
  np_text : str -> option str;
  openai_chat : str -> option str;
  encode : str -> list float;
  gemini_api_key : option str;
  openai_rag_chat : str -> str -> option str;
  gemini_generate : str -> str -> option str
}.

Definition opt_truthy (v : option str) : bool :=
  match v with Some s => truthy s | None => false end.

Definition or_default (v : option str) (d : str) : str :=
  match v with Some s => if truthy s then s else d | None => d end.

(** [extract_full_text(url)]: [np_text url] is [NPArticle(url)] downloaded
    and parsed, [None] when that raises. *)
Definition extract_full_text (E : env) (url : str) : option str :=
  match np_text E url with
  | Some raw =>
      let text := strip raw in
      if Nat.ltb (List.length text) 200 then None else Some text
  | None => None
  end.

(** The validity gate of the loop:
    [not full_text or len(full_text) < 200 or full_text.startswith("[Extractor]")]. *)
Definition invalid_text (t : option str) : bool :=
  match t with
  | None => true
  | Some s => negb (truthy s) || Nat.ltb (List.length s) 200 || is_prefix (lit "[Extractor]") s
  end.

(** One iteration of the [for item in data.get("articles", [])] loop,
    returning the updated [new_articles]. *)
Definition process_item (E : env) (topic : str) (new_articles : Z) (it : item) : M Z :=
  let author := or_default (i_author it) (lit "Unknown") in
  let source := match i_source_name it with
                | JStr s => Some s | JMissing => Some [] | JNull => None
                end in
  published_at <- (match i_published_at it with
                   | Some p => if truthy p then ret (PubStr p) else (t <- utcnow ;; ret (PubTime t))
                   | None => t <- utcnow ;; ret (PubTime t)
                   end) ;;
  match i_title it, i_url it with
  | Some title, Some url =>
      if negb (truthy title) || negb (truthy url) then ret new_articles else
      arts <- get_articles ;;
      if url_exists url arts then ret new_articles else
      emit (EvStage SExtract url) ;;;
      let full_text := extract_full_text E url in
      if invalid_text full_text then ret new_articles else
      let full_text := firstn 5000 (match full_text with Some s => s | None => [] end) in
      emit (EvStage SSummarize url) ;;;
      summary <- lift (summarize_article (openai_api_key E) (openai_chat E) title full_text) ;;
      emit (EvStage SSentiment url) ;;;
      sentiment <- lift (analyze_sentiment (openai_chat E) summary) ;;
      let combined_text := strip title ++ nl ++ nl ++ strip summary in
      emit (EvStage SEmbed url) ;;;
      let embedding := generate_embedding (encode E) combined_text in
      match source with
      | None => ret new_articles  (* [source[:200]] raises [TypeError] in the [try] *)
      | Some source =>
          fetched_at <- utcnow ;;
          let art := mkArticle (firstn 500 title) (firstn 100 author) (firstn 200 source)
                               url topic published_at fetched_at
                               (Some summary) (Some sentiment) (Some embedding) in
          saved <- commit_article art ;;
          if saved then ret (new_articles + 1) else ret new_articles
      end
  | _, _ => ret new_articles
  end.

Fixpoint process_items (E : env) (topic : str) (items : list item) (new_articles : Z) : M Z :=
  match items with
  | [] => ret new_articles
  | it :: rest => n <- process_item E topic new_articles it ;; process_items E topic rest n
  end.

(** [fetch_from_newsapi(topic, language, page_size)]. *)
Definition fetch_from_newsapi (E : env) (topic language : str) (page_size : Z) : M Z :=
  if negb (env_set (news_api_key E))
  then raise (RuntimeError (lit "NEWS_API_KEY missing in environment"))
  else
    emit (EvNewsRequest topic) ;;;
    match newsapi_get E topic language page_size with
    | TransportError => ret 0
    | Body status _ articles =>
        if negb (match status with Some s => str_eqb s (lit "ok") | None => false end)
        then ret 0
        else process_items E topic articles 0
    end.

(** ** modules/chat_agent.py: retrieval *)

Section PySort.
Context {A : Type} (key : A -> float).

(** Insertion of [x], which comes before every element of [l] in the input,
    into the ascending list [l], after the elements whose key is smaller. *)
Fixpoint insert_asc (x : A) (l : list A) : list A :=
  match l with
  | [] => [x]
  | y :: l' => if PrimFloat.ltb (key y) (key x) then y :: insert_asc x l' else x :: l
  end.

(** A stable ascending sort comparing keys with [<]. *)
Fixpoint sort_asc (l : list A) : list A :=
  match l with
  | [] => []
  | x :: l' => insert_asc x (sort_asc l')
  end.

(** [l.sort(key=key, reverse=True)]: CPython reverses the list, sorts it
    stably in ascending order and reverses it back.  When [<] orders the
    keys as a strict weak order (no NaN key) every stable sort returns the
    same list, so the insertion sort stands for timsort; with a NaN key the
    order depends on timsort's run detection, which is not modelled. *)
Definition sort_desc (l : list A) : list A := rev (sort_asc (rev l)).

End PySort.

(** [l[:k]] *)
Definition py_slice_to {A : Type} (k : Z) (l : list A) : list A :=
  if 0 <=? k then firstn (Z.to_nat k) l
  else firstn (List.length l - Z.to_nat (- k)) l.

(** [x > 0] on floats. *)
Definition pos (x : float) : bool := PrimFloat.ltb 0%float x.

(** The [scored] list: one [(sim, art)] per article with a truthy embedding,
    in the order the query returns them. *)
Definition score_articles (query_emb : emb) (arts : list article) : list (float * article) :=
  flat_map (fun art =>
              match a_embedding art with
              | Some e => if emb_truthy e then [(compute_similarity query_emb e, art)] else []
              | None => []
              end) arts.

(** [retrieve_relevant_articles(query, top_k)] over the rows [arts] of
    [articles].  [not query_emb] never holds for a JSON text. *)
Definition retrieve_relevant_articles (E : env) (arts : list article) (query : str) (top_k : Z)
    : list article :=
  let query_emb := generate_embedding (encode E) query in
  if is_sentinel query_emb then []
  else
    let scored := sort_desc fst (score_articles query_emb arts) in
    map snd (filter (fun p => pos (fst p)) (py_slice_to top_k scored)).

(** The similarity of a stored article to a query embedding. *)
Definition article_sim (query_emb : emb) (art : article) : float :=
  match a_embedding art with
  | Some e => compute_similarity query_emb e
  | None => 0%float
  end.

(** [<] restricted to [l] is a strict weak order: asymmetric, and
    [x < z] implies [x < y] or [y < z]. *)
Definition weak_order_on (l : list float) : bool :=
  forallb (fun x => forallb (fun y =>
    (negb (PrimFloat.ltb x y) || negb (PrimFloat.ltb y x)) &&
    forallb (fun z => negb (PrimFloat.ltb x z) || PrimFloat.ltb x y || PrimFloat.ltb y z) l) l) l.

(** ** modules/chat_agent.py: answer generation *)

Fixpoint digits_fuel (fuel : nat) (n : Z) (acc : str) : str :=
  match fuel with
  | O => acc
  | S f => if n <? 10 then (48 + n) :: acc
           else digits_fuel f (n / 10) ((48 + n mod 10) :: acc)
  end.

(** [str(n)] for an integer. *)
Definition z_to_str (n : Z) : str :=
  let d := digits_fuel (S (Z.to_nat (Z.log2 (Z.abs n)))) (Z.abs n) [] in
  if n <? 0 then 45 :: d else d.

(** [sep.join(l)] *)
Fixpoint py_join (sep : str) (l : list str) : str :=
  match l with
  | [] => []
  | [x] => x
  | x :: l' => x ++ sep ++ py_join sep l'
  end.

(** An f-string field holding an optional text: [None] prints as ["None"]. *)
Definition fmt_opt (v : option str) : str :=
  match v with Some s => s | None => lit "None" end.

(** [art.published_at or ""]; a time stored from [utcnow()] is printed by
    its clock reading. *)
Definition fmt_published (p : published) : str :=
  match p with PubStr s => s | PubTime t => z_to_str t end.

Fixpoint context_blocks (idx : Z) (arts : list article) : list str :=
  match arts with
  | [] => []
  | art :: rest =>
      (lit "[" ++ z_to_str idx ++ lit "] Title: " ++ a_title art ++ nl ++
       lit "Source: " ++ a_source art ++ lit " | Category: " ++ a_category art ++
       lit " | Published: " ++ fmt_published (a_published_at art) ++ nl ++
       lit "Summary:" ++ nl ++ fmt_opt (a_summary art) ++ nl)
      :: context_blocks (Z.succ idx) rest
  end.

(** [build_context_from_articles(articles)] *)
Definition build_context_from_articles (arts : list article) : str :=
  py_join (nl ++ nl) (context_blocks 1 arts).

Definition call_openai (E : env) (system_prompt user_prompt : str) : str :=
  if negb (env_set (openai_api_key E)) then lit "OpenAI API key is not configured."
  else match openai_rag_chat E system_prompt user_prompt with
       | Some content => strip content
       | None => lit "Sorry, something went wrong with OpenAI right now."
       end.

Definition call_gemini (E : env) (system_prompt user_prompt : str) : str :=
  if negb (env_set (gemini_api_key E)) then lit "Gemini API key is not configured."
  else match gemini_generate E system_prompt user_prompt with
       | Some text => strip text
       | None => lit "Sorry, something went wrong with Gemini right now."
       end.

(** [_call_llm(provider, ..)]: [provider] is [None] or a string. *)
Definition call_llm (E : env) (provider : option str) (system_prompt user_prompt : str) : str :=
  let p := py_lower (or_default provider (lit "openai")) in
  if str_eqb p (lit "gemini") then call_gemini E system_prompt user_prompt
  else call_openai E system_prompt user_prompt.

Definition system_prompt : str :=
  lit "You are NewsMind, a helpful personal news assistant. " ++
  lit "You must base your answers ONLY on the article summaries provided to you. " ++
  lit "If the answer is not in the summaries, you must say you don't know.".

Definition rag_user_prompt (question : str) (relevant : list article) : str :=
  match relevant with
  | _ :: _ =>
      lit "User question:" ++ nl ++ question ++ nl ++ nl ++
      lit "Here are relevant news summaries:" ++ nl ++
      build_context_from_articles relevant ++ nl ++ nl ++
      lit "Using ONLY the information in these summaries, " ++
      lit "answer the user's question concisely. If the information is not covered, " ++
      lit "say that you don't know based on the available news."
  | [] =>
      lit "User question:" ++ nl ++ question ++ nl ++ nl ++
      lit "There are currently no relevant news summaries available in the database. " ++
      lit "Explain that you cannot answer based on the available data."
  end.

(** [db.session.add(..)] for each row, then one [db.session.commit()]: the
    rows become visible together. *)
Definition commit_chat (rows : list chat_history) : M unit :=
  fun s => (Ret tt,
            mkState (st_articles s) (st_user_articles s) (st_chat s ++ rows)
                    (st_clock s) (st_trace s)).

(** [answer_question(user, question, provider, top_k)] for the user whose
    [id] is [user_id]. *)
Definition answer_question (E : env) (user_id : Z) (question : str)
    (provider : option str) (top_k : Z) : M (str * list article) :=
  arts <- get_articles ;;
  let relevant_articles := retrieve_relevant_articles E arts question top_k in
  let user_prompt := rag_user_prompt question relevant_articles in
  let answer := call_llm E provider system_prompt user_prompt in
  now <- utcnow ;;
  let user_msg := mkChat (lit "user") (lit "[" ++ fmt_opt provider ++ lit "] " ++ question)
                         now user_id None in
  let bot_msg := mkChat (lit "bot") answer now user_id None in
  commit_chat [user_msg; bot_msg] ;;;
  ret (answer, relevant_articles).

(** ** app.py: rating an article *)

Definition is_digit (c : Z) : bool := (48 <=? c) && (c <=? 57).

Fixpoint parse_digits_acc (s : str) (acc : Z) : option Z :=
  match s with
  | [] => Some acc
  | c :: s' =>
      if is_digit c then parse_digits_acc s' (acc * 10 + (c - 48))
      else if c =? 95 then
        match s' with
        | d :: s'' => if is_digit d then parse_digits_acc s'' (acc * 10 + (d - 48)) else None
        | [] => None
        end
      else None
  end.

(** Digits, single underscores allowed between them. *)
Definition parse_digits (s : str) : option Z :=
  match s with
  | c :: s' => if is_digit c then parse_digits_acc s' (c - 48) else None
  | [] => None
  end.

(** [int(s)] on a string of ASCII digits ([None] where [int] raises
    [ValueError]): surrounding whitespace, an optional sign, then digits. *)
Definition py_int (s : str) : option Z :=
  match strip s with
  | 45 :: r => option_map Z.opp (parse_digits r)
  | 43 :: r => parse_digits r
  | t => parse_digits t
  end.

(** [db.session.get(Article, article_id)]: the core never deletes articles,
    so the autoincrement id of the n-th inserted row is n. *)
Definition article_by_id (arts : list article) (article_id : Z) : option article :=
  if 1 <=? article_id then nth_error arts (Z.to_nat (article_id - 1)) else None.

Definition ua_matches (user_id article_id : Z) (ua : user_article) : bool :=
  (ua_user_id ua =? user_id) && (ua_article_id ua =? article_id).

Definition get_user_articles : M (list user_article) := fun s => (Ret (st_user_articles s), s).

Definition insert_user_article (ua : user_article) : M unit :=
  fun s => (Ret tt,
            mkState (st_articles s) (st_user_articles s ++ [ua]) (st_chat s)
                    (st_clock s) (st_trace s)).

(** [get_or_create_user_article(user_id, article_id)]; the row is found
    again by its key where the source keeps the ORM object. *)
Definition get_or_create_user_article (user_id article_id : Z) : M unit :=
  uas <- get_user_articles ;;
  match find (ua_matches user_id article_id) uas with
  | Some _ => ret tt
  | None =>
      t <- utcnow ;;
      insert_user_article (mkUserArticle user_id article_id [] None None t)
  end.

(** Changes the first row [filter_by(..).first()] returns for the key. *)
Fixpoint update_first (p : user_article -> bool) (f : user_article -> user_article)
    (l : list user_article) : list user_article :=
  match l with
  | [] => []
  | x :: l' => if p x then f x :: l' else x :: update_first p f l'
  end.

(** [ua.rating = rating; ua.timestamp = ..; db.session.commit()] *)
Definition set_rating (user_id article_id rating t : Z) : M unit :=
  fun s => (Ret tt,
            mkState (st_articles s)
                    (update_first (ua_matches user_id article_id)
                       (fun ua => mkUserArticle (ua_user_id ua) (ua_article_id ua) (ua_action ua)
                                    (Some rating) (ua_notes ua) t)
                       (st_user_articles s))
                    (st_chat s) (st_clock s) (st_trace s)).

(** A [redirect(url_for("article_detail", article_id=..))], with the
    message flashed before it, if any. *)
Inductive response : Type :=
| RedirectDetail (article_id : Z) (flashed : option str).

(** [rate_article(article_id)] for the logged-in user [user_id];
    [rating_form] is [request.form.get("rating")]. *)
Definition rate_article (user_id article_id : Z) (rating_form : option str) : M response :=
  arts <- get_articles ;;
  match article_by_id arts article_id with
  | None => raise NotFound
  | Some _ =>
      get_or_create_user_article user_id article_id ;;;
      match match rating_form with Some r => py_int r | None => None end with
      | None => ret (RedirectDetail article_id (Some (lit "Invalid rating.")))
      | Some r =>
          let rating := Z.max 1 (Z.min 10 r) in
          t <- utcnow ;;
          set_rating user_id article_id rating t ;;;
          ret (RedirectDetail article_id None)
      end
  end.

(** An environment with the given [NEWS_API_KEY] and NewsAPI answer, in which
    every other service fails. *)
Definition env_demo (news_key : option str) (resp : news_response) : env :=
  mkEnv news_key (Some (lit "sk")) (fun _ _ _ => resp) (fun _ => None)
        (fun _ => None) (fun _ => []) None (fun _ _ => None) (fun _ _ => None).

(** The effect of a stretch of the ingestion loop that started with
    [new_articles = n] in state [s]: rows are only appended, each with a URL
    absent from [s]; the only enrichment calls made are for URLs absent from
    [s]; and the count returned grew by the number of appended rows. *)
Definition item_step (s : state) (n : Z) (r : res Z) (s' : state) : Prop :=
  exists added evs,
    st_articles s' = st_articles s ++ added /\
    Forall (fun a => url_exists (a_url a) (st_articles s) = false) added /\
    st_trace s' = st_trace s ++ evs /\
    (forall url stg, url_exists url (st_articles s) = true -> ~ In (EvStage stg url) evs) /\
    (forall m, r = Ret m -> m = n + Z.of_nat (List.length added)).

(** An item that the loop leaves without saving when the rows are [arts]:
    title or URL missing or empty, URL already stored, no valid text, or a
    [null] source name (the row is rolled back) with the OpenAI key set. *)
Definition item_settled (E : env) (arts : list article) (it : item) : Prop :=
  match i_title it, i_url it with
  | Some title, Some url =>
      (negb (truthy title) || negb (truthy url)) = true \/
      url_exists url arts = true \/
      invalid_text (extract_full_text E url) = true \/
      (i_source_name it = JNull /\ env_set (openai_api_key E) = true)
  | _, _ => True
  end.

(** An environment whose only service is the sentence encoder [enc]. *)
Definition env_query (enc : str -> list float) : env :=
  mkEnv None None (fun _ _ _ => TransportError) (fun _ => None)
        (fun _ => None) enc None (fun _ _ => None) (fun _ _ => None).

(** A stored article with URL [url] and embedding vector [v]. *)
Definition article_emb (url : str) (v : list float) : article :=
  mkArticle (lit "T") (lit "A") (lit "S") url (lit "general") (PubStr [])
            0 (Some (lit "Sum")) (Some label_neutral) (Some (EJson v)).

(** ** app.py: user actions on an article *)

(** [add_user_action(ua, action_name)], with [datetime.utcnow()] read as
    [t].  [ua.action] is always the JSON text of a list written by this
    code, so [json.loads] succeeds and the [except] branch is not taken. *)
Definition add_user_action (ua : user_article) (action_name : str) (t : Z) : user_article :=
  let actions := ua_action ua in
  let actions := if existsb (str_eqb action_name) actions then actions
                 else actions ++ [action_name] in
  mkUserArticle (ua_user_id ua) (ua_article_id ua) actions (ua_rating ua) (ua_notes ua) t.

(** Changes to the ORM object [ua] of the key, then [db.session.commit()]. *)
Definition update_user_article (user_id article_id : Z) (f : user_article -> user_article)
    : M unit :=
  fun s => (Ret tt,
            mkState (st_articles s)
                    (update_first (ua_matches user_id article_id) f (st_user_articles s))
                    (st_chat s) (st_clock s) (st_trace s)).

(** The body shared by [article_detail], [like_article] and
    [open_original] after the 404 check: [get_or_create_user_article],
    [add_user_action(ua, tag)] and [db.session.commit()]. *)
Definition record_action (user_id article_id : Z) (tag : str) : M unit :=
  get_or_create_user_article user_id article_id ;;;
  t <- utcnow ;;
  update_user_article user_id article_id (fun ua => add_user_action ua tag t).

(** [article_detail(article_id)]: the article and the text extracted for
    the page. *)
Definition article_detail (E : env) (user_id article_id : Z) : M (article * option str) :=
  arts <- get_articles ;;
  match article_by_id arts article_id with
  | None => raise NotFound
  | Some article =>
      record_action user_id article_id (lit "viewed") ;;;
      ret (article, extract_full_text E (a_url article))
  end.

(** [like_article(article_id)] *)
Definition like_article (user_id article_id : Z) : M response :=
  arts <- get_articles ;;
  match article_by_id arts article_id with
  | None => raise NotFound
  | Some _ =>
      record_action user_id article_id (lit "liked") ;;;
      ret (RedirectDetail article_id None)
  end.

(** [open_original(article_id)]: the URL it redirects to. *)
Definition open_original (user_id article_id : Z) : M str :=
  arts <- get_articles ;;
  match article_by_id arts article_id with
  | None => raise NotFound
  | Some article =>
      record_action user_id article_id (lit "linked") ;;;
      ret (a_url article)
  end.

(** [save_notes(article_id)]; [notes_form] is [request.form.get("notes")]. *)
Definition save_notes (user_id article_id : Z) (notes_form : option str) : M response :=
  arts <- get_articles ;;
  match article_by_id arts article_id with
  | None => raise NotFound
  | Some _ =>
      get_or_create_user_article user_id article_id ;;;
      let notes := strip (match notes_form with Some n => n | None => [] end) in
      t <- utcnow ;;
      update_user_article user_id article_id
        (fun ua => mkUserArticle (ua_user_id ua) (ua_article_id ua) (ua_action ua)
                                 (ua_rating ua) (Some notes) t) ;;;
      ret (RedirectDetail article_id None)
  end.

(** The key of a [user_articles] row. *)
Definition ua_key (ua : user_article) : Z * Z := (ua_user_id ua, ua_article_id ua).

(** What the routes keep of [user_articles]: one row per (user, article)
    pair, and no action tag twice in a row's list. *)
Definition ua_wf (uas : list user_article) : Prop :=
  NoDup (map ua_key uas) /\ Forall (fun ua => NoDup (ua_action ua)) uas.

(** ** app.py: topics and the refresh *)

(** A row of [users] (the columns the routes below read). *)
Record user : Type := mkUser {
  u_id : Z;
  u_username : str;
  u_email : str;
  u_interests : option str;
  u_preferred_language : str
}.

(** [get_current_user()] with [session["user_id"]] equal to
    [session_user_id]: [0] is falsy. *)
Definition get_current_user (users : list user) (session_user_id : Z) : option user :=
  if session_user_id =? 0 then None else find (fun u => u_id u =? session_user_id) users.

(** [s.split(sep)] for a one-character separator. *)
Fixpoint py_split_char (sep : Z) (s : str) : list str :=
  match s with
  | [] => [[]]
  | c :: s' =>
      let pieces := py_split_char sep s' in
      if c =? sep then [] :: pieces
      else match pieces with
           | p :: ps => (c :: p) :: ps
           | [] => [[c]]
           end
  end.

(** [[t.strip() for t in (user.interests or "").split(",") if t.strip()]],
    the topic list of [refresh_process] and [digest]. *)
Definition parse_topics (interests : option str) : list str :=
  map strip (filter (fun t => truthy (strip t))
                    (py_split_char 44 (match interests with Some i => i | None => [] end))).

Definition common_topics : list str :=
  map lit ["technology"; "science"; "business"; "health"; "sports";
           "politics"; "world"; "entertainment"; "lifestyle"]%string.

(** The [POST] branch of [select_topics()] for the current user [u] and
    [request.form.getlist("topics")]: the redirect target, the flashed
    message and the user row after the commit. *)
Definition select_topics_post (u : user) (selected_topics : list str) : str * str * user :=
  match selected_topics with
  | [] => (lit "/select_topics", lit "Please choose at least one topic.", u)
  | _ => (lit "/refresh", lit "Topics saved successfully!",
          mkUser (u_id u) (u_username u) (u_email u)
                 (Some (py_join (lit ", ") selected_topics)) (u_preferred_language u))
  end.

(** [s.upper()] on the ASCII letters. *)
Definition py_upper (s : str) : str :=
  map (fun c => if (97 <=? c) && (c <=? 122) then c - 32 else c) s.

(** [str(e)] of the exceptions the core raises. *)
Definition exn_str (e : exn) : str :=
  match e with
  | RuntimeError m => m
  | BaseException m => m
  | NotFound => lit "404 Not Found: The requested URL was not found on the server. If you entered the URL manually please check your spelling and try again."
  end.

(** The [for topic in topics] loop of [refresh_process]: the final
    [total_new], the exception that left the loop, if any, and the state. *)
Fixpoint refresh_loop (E : env) (language : str) (topics : list str) (total_new : Z)
    (s : state) : Z * option exn * state :=
  match topics with
  | [] => (total_new, None, s)
  | topic :: rest =>
      match fetch_from_newsapi E topic language 5 s with
      | (Ret added, s') => refresh_loop E language rest (total_new + added) s'
      | (Raise e, s') => (total_new, Some e, s')
      end
  end.

(** What [refresh_process()] ends with: the JSON
    [{"status": "done", "new_articles": total_new}] after the flashed
    message, or [UnboundLocalError] on [total_new] when the [try] failed
    before its assignment. *)
Inductive refresh_result : Type :=
| RefreshDone (flashed : str) (new_articles : Z)
| RefreshUnboundLocal (flashed : str).

(** [refresh_process()] for a session holding [session_user_id]. *)
Definition refresh_process (E : env) (users : list user) (session_user_id : Z) (s : state)
    : refresh_result * state :=
  match get_current_user users session_user_id with
  | None =>
      (RefreshUnboundLocal
         (lit "Error during refresh: 'NoneType' object has no attribute 'interests'"), s)
  | Some user =>
      let topics := parse_topics (u_interests user) in
      match refresh_loop E (u_preferred_language user) topics 0 s with
      | (total_new, None, s') =>
          (RefreshDone (lit "Fetched " ++ z_to_str total_new ++ lit ": " ++
                        py_upper (u_preferred_language user) ++ lit " news for " ++
                        u_username user ++ lit ".") total_new, s')
      | (total_new, Some e, s') =>
          (RefreshDone (lit "Error during refresh: " ++ exn_str e) total_new, s')
      end
  end.

(** ** Stored article rows *)

(** The shape of a row [fetch_from_newsapi] saves for [topic]. *)
Definition row_ok (topic : str) (a : article) : Prop :=
  a_category a = topic /\
  truthy (a_title a) = true /\ (List.length (a_title a) <= 500)%nat /\
  (List.length (a_author a) <= 100)%nat /\ (List.length (a_source a) <= 200)%nat /\
  truthy (a_url a) = true /\
  (exists summary, a_summary a = Some summary) /\
  (exists sentiment, a_sentiment a = Some sentiment /\ is_label sentiment = true) /\
  (exists xs, a_embedding a = Some (EJson xs)).

(** * Helpers of the route and refresh properties *)

(** The state after [get_or_create_user_article user_id article_id]. *)
Definition goc_state (user_id article_id : Z) (s : state) : state :=
  match find (ua_matches user_id article_id) (st_user_articles s) with
  | Some _ => s
  | None => mkState (st_articles s)
              (st_user_articles s ++ [mkUserArticle user_id article_id [] None None (st_clock s)])
              (st_chat s) (Z.succ (st_clock s)) (st_trace s)
  end.

(** Sample data for the witnesses. *)
Definition urls_state : state :=
  mkState [article_emb (lit "u1") []; article_emb (lit "u2") []] [] [] 0 [].

Definition users_demo : list user :=
  [mkUser 7 (lit "ann") (lit "ann@example.com") (Some (lit "science, health")) (lit "en")].

Definition env_text (raw : str) : env :=
  mkEnv None None (fun _ _ _ => TransportError) (fun _ => Some raw)
        (fun _ => None) (fun _ => []) None (fun _ _ => None) (fun _ _ => None).

Definition routes_state : state :=
  mkState [article_emb (lit "u1") []; article_emb (lit "u2") []]
          [mkUserArticle 7 2 [lit "viewed"] (Some 4) None 0] [] 1 [].

(** * Properties *)

(** ** Helper lemmas *)

Lemma str_eqb_eq : forall a b : str, str_eqb a b = true <-> a = b.
Proof.
  induction a as [|x a IH]; destruct b as [|y b]; simpl; try (split; congruence).
  rewrite andb_true_iff, Z.eqb_eq, IH. split.
  - intros [-> ->]. reflexivity.
  - intros H. injection H as -> ->. auto.
Qed.

Lemma lstrip_all_space : forall s, forallb py_isspace s = true -> lstrip s = [].
Proof.
  induction s as [|c s IH]; simpl; auto.
  rewrite andb_true_iff. intros [Hc Hs]. rewrite Hc. auto.
Qed.

Lemma summarize_article_ret_key : forall key chat title text s,
  summarize_article key chat title text = Ret s -> env_set key = true.
Proof.
  unfold summarize_article. intros key chat title text s.
  destruct (env_set key); simpl; congruence.
Qed.

Lemma summarize_article_key_ret : forall key chat title text,
  env_set key = true -> exists s, summarize_article key chat title text = Ret s.
Proof.
  unfold summarize_article. intros key chat title text ->. simpl.
  destruct (chat _); eauto.
Qed.

Lemma analyze_sentiment_ret : forall chat t, exists l, analyze_sentiment chat t = Ret l.
Proof.
  unfold analyze_sentiment. intros chat t.
  destruct (chat _); [destruct (negb _)|]; eauto.
Qed.

(** ** Summarizer *)

(** C1 (counterexample): with [OPENAI_API_KEY] unset, [summarize_article]
    raises [Exception("OpenAI API key not set.")] instead of returning
    ["Summary unavailable."]. *)
Lemma summarize_article_missing_key_raises :
  summarize_article None (fun _ => Some (lit "- A fact.")) (lit "A") (lit "Some text.")
    = Raise (BaseException (lit "OpenAI API key not set.")) /\
  ~ (exists s, summarize_article None (fun _ => Some (lit "- A fact.")) (lit "A") (lit "Some text.")
                 = Ret s).
Proof.
  split.
  - reflexivity.
  - intros [s H]. discriminate H.
Qed.

(** C1 (amended): when [OPENAI_API_KEY] is unset or empty,
    [summarize_article] raises before calling the provider; when it is set,
    the call never raises, and a failure of the provider call yields
    ["Summary unavailable."]. *)
Theorem summarize_article_degrades : forall key chat title text,
  (env_set key = false ->
     summarize_article key chat title text = Raise (BaseException (lit "OpenAI API key not set."))) /\
  (env_set key = true -> exists s, summarize_article key chat title text = Ret s) /\
  (env_set key = true -> chat (summary_prompt title (firstn 6000 text)) = None ->
     summarize_article key chat title text = Ret summary_unavailable).
Proof.
  intros key chat title text. unfold summarize_article.
  split; [|split]; intros Hk; rewrite Hk; simpl; auto.
  - destruct (chat _); eauto.
  - intros ->. reflexivity.
Qed.

Lemma summarize_article_degrades_witness :
  summarize_article (Some (lit "sk")) (fun _ => None) (lit "A") (lit "text") = Ret summary_unavailable.
Proof.
  apply (proj2 (proj2 (summarize_article_degrades (Some (lit "sk")) (fun _ => None) (lit "A") (lit "text"))));
    reflexivity.
Defined.

(** C7: [analyze_sentiment] always returns one of ["positive"],
    ["neutral"], ["negative"]; an answer outside that set, and a failed
    provider call, both give ["neutral"]. *)
Theorem analyze_sentiment_label : forall chat summary_text,
  (exists l, analyze_sentiment chat summary_text = Ret l /\
     (l = label_positive \/ l = label_neutral \/ l = label_negative)) /\
  (chat (sentiment_prompt summary_text) = None ->
     analyze_sentiment chat summary_text = Ret label_neutral) /\
  (forall raw, chat (sentiment_prompt summary_text) = Some raw ->
     is_label (py_lower (strip raw)) = false ->
     analyze_sentiment chat summary_text = Ret label_neutral).
Proof.
  intros chat summary_text. unfold analyze_sentiment.
  split; [|split].
  - destruct (chat _) as [raw|].
    + destruct (is_label (py_lower (strip raw))) eqn:Hl; simpl.
      * eexists; split; [reflexivity|].
        unfold is_label in Hl. rewrite !orb_true_iff, !str_eqb_eq in Hl. tauto.
      * eexists; split; [reflexivity|]. auto.
    + eexists; split; [reflexivity|]. auto.
  - intros ->. reflexivity.
  - intros raw -> Hl. rewrite Hl. reflexivity.
Qed.

Lemma analyze_sentiment_label_witness :
  analyze_sentiment (fun _ => Some (lit "Mixed")) (lit "- A fact.") = Ret label_neutral.
Proof.
  apply (proj2 (proj2 (analyze_sentiment_label (fun _ => Some (lit "Mixed")) (lit "- A fact.")))
           (lit "Mixed")); reflexivity.
Defined.

(** ** Embedding service *)

(** C3: [generate_embedding] maps [""] and every whitespace-only string to
    the sentinel ["[]"], and [compute_similarity] with the sentinel on
    either side is exactly [0.0]. *)
Theorem embedding_sentinel_zero : forall encode text,
  forallb py_isspace text = true ->
  generate_embedding encode text = sentinel /\
  (forall X, compute_similarity sentinel X = 0%float /\ compute_similarity X sentinel = 0%float).
Proof.
  intros encode text Hsp. split.
  - unfold generate_embedding, strip. rewrite (lstrip_all_space text Hsp). simpl.
    rewrite orb_true_r. reflexivity.
  - intros X. unfold compute_similarity, sentinel. simpl.
    destruct X as [xs|s]; simpl; auto.
    rewrite orb_true_r. auto.
Qed.

Lemma embedding_sentinel_zero_witness :
  generate_embedding (fun _ => [1.0%float]) [32; 9; 10] = sentinel /\
  compute_similarity (EJson [0.5%float]) sentinel = 0%float.
Proof.
  destruct (embedding_sentinel_zero (fun _ => [1.0%float]) [32; 9; 10] eq_refl) as [H1 H2].
  split; [exact H1 | exact (proj2 (H2 (EJson [0.5%float])))].
Defined.

(** C4 (code bug): for the all-zeros vector [[0.0, 0.0]] against
    [[1.0, 1.0]], [compute_similarity] computes [0.0 / 0.0] and returns NaN,
    which is neither [0.0] nor in [[-1.0, 1.0]]. *)
Theorem compute_similarity_zero_norm_nan :
  PrimFloat.is_nan (compute_similarity (EJson [0.0; 0.0]%float) (EJson [1.0; 1.0]%float)) = true /\
  PrimFloat.leb (-1.0)%float (compute_similarity (EJson [0.0; 0.0]%float) (EJson [1.0; 1.0]%float))
    = false.
Proof. split; vm_compute; reflexivity. Qed.

(** ** Ingestion: failures before the item loop *)

(** C10: without [NEWS_API_KEY], [fetch_from_newsapi] raises
    [RuntimeError] before any request, leaving the state as it was. *)
Theorem fetch_missing_key_raises : forall E topic language page_size s,
  env_set (news_api_key E) = false ->
  fetch_from_newsapi E topic language page_size s
    = (Raise (RuntimeError (lit "NEWS_API_KEY missing in environment")), s).
Proof.
  intros E topic language page_size s Hk. unfold fetch_from_newsapi. rewrite Hk. reflexivity.
Qed.

Lemma fetch_missing_key_raises_witness :
  fetch_from_newsapi (env_demo None TransportError) (lit "AI") (lit "en") 5 (mkState [] [] [] 0 [])
    = (Raise (RuntimeError (lit "NEWS_API_KEY missing in environment")), mkState [] [] [] 0 []).
Proof. apply fetch_missing_key_raises. reflexivity. Defined.

(** C6: when the request raises (transport error, timeout, non-2xx status)
    or the body's [status] is not ["ok"], [fetch_from_newsapi] returns 0
    without raising; the only change is the logged request. *)
Theorem fetch_request_failure_zero : forall E topic language page_size s,
  env_set (news_api_key E) = true ->
  (newsapi_get E topic language page_size = TransportError \/
   exists status message items, newsapi_get E topic language page_size = Body status message items
                                /\ status <> Some (lit "ok")) ->
  fetch_from_newsapi E topic language page_size s
    = (Ret 0, mkState (st_articles s) (st_user_articles s) (st_chat s) (st_clock s)
                      (st_trace s ++ [EvNewsRequest topic])).
Proof.
  intros E topic language page_size s Hk Hresp. unfold fetch_from_newsapi. rewrite Hk. simpl.
  unfold bind, emit. simpl.
  destruct Hresp as [-> | (status & message & items & -> & Hst)]; [reflexivity|].
  destruct status as [st|]; [|reflexivity].
  destruct (str_eqb st (lit "ok")) eqn:E1; [|reflexivity].
  apply str_eqb_eq in E1. subst. congruence.
Qed.

Lemma fetch_request_failure_zero_witness :
  fetch_from_newsapi (env_demo (Some (lit "key")) (Body (Some (lit "error")) None [])) (lit "AI")
    (lit "en") 5 (mkState [] [] [] 0 [])
    = (Ret 0, mkState [] [] [] 0 [EvNewsRequest (lit "AI")]).
Proof.
  apply (fetch_request_failure_zero
           (env_demo (Some (lit "key")) (Body (Some (lit "error")) None [])) (lit "AI") (lit "en") 5
           (mkState [] [] [] 0 [])).
  - reflexivity.
  - right. exists (Some (lit "error")), None, []. split; [reflexivity | discriminate].
Defined.

(** ** Rating *)

(** C8 (code bug): for a user with no [UserArticle] row for article 1, the
    non-numeric rating ["abc"] is rejected with ["Invalid rating."], yet a
    new row has been created and committed; ["15"] and ["-3"] are stored
    as 10 and 1. *)
Theorem rate_article_invalid_creates_row :
  let arts := [mkArticle (lit "A") (lit "Unknown") (lit "S") (lit "https://x/1") (lit "technology")
                         (PubStr (lit "2024")) 0 None None None] in
  let s0 := mkState arts [] [] 5 [] in
  rate_article 7 1 (Some (lit "abc")) s0
    = (Ret (RedirectDetail 1 (Some (lit "Invalid rating."))),
       mkState arts [mkUserArticle 7 1 [] None None 5] [] 6 []) /\
  st_user_articles (snd (rate_article 7 1 (Some (lit "15")) s0))
    = [mkUserArticle 7 1 [] (Some 10) None 6] /\
  st_user_articles (snd (rate_article 7 1 (Some (lit "-3")) s0))
    = [mkUserArticle 7 1 [] (Some 1) None 6].
Proof. repeat split; vm_compute; reflexivity. Qed.

(** ** Conversation log *)

(** C9: [answer_question] returns normally and appends, in one commit, a
    ["user"] turn followed by a ["bot"] turn holding the answer, both with
    the one timestamp read from the clock. *)
Theorem answer_question_appends_pair : forall E user_id question provider top_k s,
  let '(r, s') := answer_question E user_id question provider top_k s in
  exists answer relevant,
    r = Ret (answer, relevant) /\
    st_chat s' = st_chat s ++
      [mkChat (lit "user") (lit "[" ++ fmt_opt provider ++ lit "] " ++ question) (st_clock s) user_id None;
       mkChat (lit "bot") answer (st_clock s) user_id None].
Proof.
  intros E user_id question provider top_k s.
  unfold answer_question, bind, get_articles, utcnow, commit_chat, ret. simpl.
  do 2 eexists. split; reflexivity.
Qed.

(** ** Ingestion: deduplication by URL *)

Ltac monad_red :=
  cbv beta iota zeta delta [bind ret utcnow emit get_articles lift commit_article raise
                            st_articles st_trace st_clock st_chat st_user_articles].

(** Case analysis on the innermost tests of a monadic program. *)
Ltac split_atomic_match :=
  match goal with |- context [match ?x with _ => _ end] =>
    lazymatch x with
    | context [match _ with _ => _ end] => fail
    | _ => let Hm := fresh "Hm" in destruct x eqn:Hm
    end
  end.

Lemma url_exists_app : forall url l1 l2,
  url_exists url (l1 ++ l2) = url_exists url l1 || url_exists url l2.
Proof. intros. unfold url_exists. apply existsb_app. Qed.

Lemma str_eqb_refl : forall a, str_eqb a a = true.
Proof. intros a. apply str_eqb_eq. reflexivity. Qed.

Lemma process_item_step : forall E topic n it s,
  let (r, s') := process_item E topic n it s in item_step s n r s'.
Proof.
  intros E topic n it [arts uas ch clk tr].
  unfold process_item. monad_red.
  repeat (split_atomic_match; monad_red).
  all: unfold item_step; cbn [st_articles st_trace a_url]; do 2 eexists.
  all: split; [first [reflexivity | symmetry; apply app_nil_r]|].
  all: split; [repeat constructor; assumption|].
  all: split; [rewrite <- ?app_assoc; simpl app; first [reflexivity | symmetry; apply app_nil_r]|].
  all: split; [ intros u stg Hu Hin; simpl in Hin;
                repeat (destruct Hin as [Hin|Hin]; [injection Hin as <-; congruence|]); contradiction
              | intros m Hr; (injection Hr as <- || discriminate Hr); simpl; lia ].
Qed.

Lemma item_step_refl : forall s n, item_step s n (Ret n) s.
Proof.
  intros s n. exists [], []. rewrite !app_nil_r.
  split; [reflexivity|]. split; [constructor|]. split; [reflexivity|]. split.
  - intros u stg _ [].
  - intros m Hm. injection Hm as <-. simpl. lia.
Qed.

Lemma item_step_trans : forall s n n1 s1 r s',
  item_step s n (Ret n1) s1 -> item_step s1 n1 r s' -> item_step s n r s'.
Proof.
  intros s n n1 s1 r s' (a1 & e1 & Ha1 & Hf1 & He1 & Hev1 & Hc1)
         (a2 & e2 & Ha2 & Hf2 & He2 & Hev2 & Hc2).
  exists (a1 ++ a2), (e1 ++ e2). repeat split.
  - rewrite Ha2, Ha1, app_assoc. reflexivity.
  - apply Forall_app. split; [exact Hf1|].
    eapply Forall_impl; [|exact Hf2]. intros a Ha. rewrite Ha1, url_exists_app in Ha.
    apply orb_false_iff in Ha. tauto.
  - rewrite He2, He1, app_assoc. reflexivity.
  - intros u stg Hu Hin. apply in_app_or in Hin as [Hin|Hin].
    + exact (Hev1 u stg Hu Hin).
    + apply (Hev2 u stg); [|exact Hin]. rewrite Ha1, url_exists_app, Hu. reflexivity.
  - intros m Hm. rewrite (Hc2 m Hm), (Hc1 n1 eq_refl), length_app. lia.
Qed.

Lemma process_items_step : forall E topic items n s,
  let (r, s') := process_items E topic items n s in item_step s n r s'.
Proof.
  intros E topic items. induction items as [|it rest IH]; intros n s.
  - apply item_step_refl.
  - simpl. unfold bind.
    pose proof (process_item_step E topic n it s) as H1.
    destruct (process_item E topic n it s) as [[n1|e] s1].
    + specialize (IH n1 s1). destruct (process_items E topic rest n1 s1) as [r s'].
      exact (item_step_trans _ _ _ _ _ _ H1 IH).
    + destruct H1 as (a & ev & H1 & H2 & H3 & H4 & _).
      exists a, ev. repeat split; auto. discriminate.
Qed.

Lemma item_settled_app : forall E arts l it,
  item_settled E arts it -> item_settled E (arts ++ l) it.
Proof.
  unfold item_settled. intros E arts l it.
  destruct (i_title it), (i_url it); auto.
  rewrite url_exists_app. intros [H|[H|H]]; [left | right; left | right; right]; auto.
  rewrite H. reflexivity.
Qed.

Lemma process_item_settles : forall E topic n it s,
  let (r, s') := process_item E topic n it s in
  forall m, r = Ret m -> item_settled E (st_articles s') it.
Proof.
  intros E topic n it [arts uas ch clk tr].
  unfold process_item, item_settled. monad_red.
  repeat (split_atomic_match; monad_red).
  all: intros m Hr; try discriminate Hr; cbn [st_articles a_url]; auto.
  all: first [ left; assumption
             | right; left; assumption
             | right; right; left; assumption
             | right; left; rewrite url_exists_app; simpl; rewrite str_eqb_refl, orb_true_r; reflexivity
             | right; right; right; split;
               [first [assumption | reflexivity] | eapply summarize_article_ret_key; eassumption] ].
Qed.

Lemma process_item_settled_skip : forall E topic n it s,
  item_settled E (st_articles s) it ->
  let (r, s') := process_item E topic n it s in r = Ret n /\ st_articles s' = st_articles s.
Proof.
  intros E topic n it [arts uas ch clk tr].
  unfold process_item, item_settled. cbn [st_articles]. monad_red.
  repeat (split_atomic_match; monad_red).
  all: intros Hs; try (split; reflexivity).
  all: destruct Hs as [Hs|[Hs|[Hs|[Hsrc Hkey]]]]; try congruence.
  all: match goal with
       | H : summarize_article _ _ ?t ?x = Raise _ |- _ =>
           destruct (summarize_article_key_ret _ (openai_chat E) t x Hkey); congruence
       | H : analyze_sentiment ?c ?t = Raise _ |- _ =>
           destruct (analyze_sentiment_ret c t); congruence
       end.
Qed.

Lemma process_items_settled_skip : forall E topic items n s,
  Forall (item_settled E (st_articles s)) items ->
  let (r, s') := process_items E topic items n s in r = Ret n /\ st_articles s' = st_articles s.
Proof.
  intros E topic items. induction items as [|it rest IH]; intros n s Hall.
  - split; reflexivity.
  - inversion Hall as [|? ? Hit Hrest]; subst. simpl. unfold bind.
    pose proof (process_item_settled_skip E topic n it s Hit) as H1.
    destruct (process_item E topic n it s) as [r1 s1]. destruct H1 as [-> Hs1].
    rewrite <- Hs1 in Hrest. specialize (IH n s1 Hrest).
    destruct (process_items E topic rest n s1) as [r s']. destruct IH as [-> ->].
    split; auto.
Qed.

Lemma process_items_settles : forall E topic items n s,
  let (r, s') := process_items E topic items n s in
  forall m, r = Ret m -> Forall (item_settled E (st_articles s')) items.
Proof.
  intros E topic items. induction items as [|it rest IH]; intros n s.
  - intros m _. constructor.
  - simpl. unfold bind.
    pose proof (process_item_settles E topic n it s) as H1.
    destruct (process_item E topic n it s) as [[n1|e] s1]; [|intros m Hm; discriminate Hm].
    pose proof (process_items_step E topic rest n1 s1) as H2.
    specialize (IH n1 s1).
    destruct (process_items E topic rest n1 s1) as [r s'].
    intros m Hm. constructor.
    + destruct H2 as (a & ev & Ha & _). rewrite Ha. apply item_settled_app. exact (H1 n1 eq_refl).
    + exact (IH m Hm).
Qed.

Lemma fetch_rerun_zero : forall E topic language page_size s n s1,
  fetch_from_newsapi E topic language page_size s = (Ret n, s1) ->
  fst (fetch_from_newsapi E topic language page_size s1) = Ret 0.
Proof.
  intros E topic language page_size s n s1 H.
  unfold fetch_from_newsapi in *.
  destruct (env_set (news_api_key E)); simpl in *; [|discriminate H].
  unfold bind, emit in *.
  destruct (newsapi_get E topic language page_size) as [|status message items]; [reflexivity|].
  destruct (negb _); [reflexivity|].
  pose proof (process_items_settles E topic items 0
    (mkState (st_articles s) (st_user_articles s) (st_chat s) (st_clock s)
             (st_trace s ++ [EvNewsRequest topic]))) as Hset.
  rewrite H in Hset. specialize (Hset n eq_refl).
  pose proof (process_items_settled_skip E topic items 0
    (mkState (st_articles s1) (st_user_articles s1) (st_chat s1) (st_clock s1)
             (st_trace s1 ++ [EvNewsRequest topic])) Hset) as Hskip.
  match type of Hskip with context [process_items ?a ?b ?c ?d ?e] =>
    destruct (process_items a b c d e) as [r s2] end.
  destruct Hskip as [-> _]. reflexivity.
Qed.

Lemma item_step_same : forall s n r, (forall m, r = Ret m -> m = n) -> item_step s n r s.
Proof.
  intros s n r Hr. exists [], []. rewrite !app_nil_r.
  split; [reflexivity|]. split; [constructor|]. split; [reflexivity|]. split.
  - intros u stg _ [].
  - intros m Hm. rewrite (Hr m Hm). simpl. lia.
Qed.

Lemma fetch_step : forall E topic language page_size s,
  let (r, s') := fetch_from_newsapi E topic language page_size s in item_step s 0 r s'.
Proof.
  intros E topic language page_size s. unfold fetch_from_newsapi.
  destruct (env_set (news_api_key E)); simpl.
  2: { apply item_step_same. discriminate. }
  unfold bind, emit.
  set (s1 := mkState (st_articles s) (st_user_articles s) (st_chat s) (st_clock s)
                     (st_trace s ++ [EvNewsRequest topic])).
  assert (H1 : item_step s 0 (Ret 0) s1).
  { exists [], [EvNewsRequest topic]. rewrite app_nil_r.
    split; [reflexivity|]. split; [constructor|]. split; [reflexivity|]. split.
    - intros u stg _ [Hin|[]]. discriminate Hin.
    - intros m Hm. injection Hm as <-. reflexivity. }
  destruct (newsapi_get E topic language page_size) as [|status message items].
  - exact H1.
  - destruct (negb _); [exact H1|].
    pose proof (process_items_step E topic items 0 s1) as H2.
    destruct (process_items E topic items 0 s1) as [r s'].
    exact (item_step_trans _ _ _ _ _ _ H1 H2).
Qed.

(** C5: an ingestion run only appends rows whose URL was not stored
    before it, so no URL already stored gets a second row and the count
    returned is the number of appended rows; it calls extraction,
    summarisation, sentiment classification and embedding for no URL
    already stored; and when a run returns normally, running it again
    returns 0. *)
Theorem fetch_dedup_by_url : forall E topic language page_size s,
  let (r, s') := fetch_from_newsapi E topic language page_size s in
  (exists added,
     st_articles s' = st_articles s ++ added /\
     Forall (fun a => url_exists (a_url a) (st_articles s) = false) added /\
     (forall n, r = Ret n -> n = Z.of_nat (List.length added))) /\
  (exists evs,
     st_trace s' = st_trace s ++ evs /\
     (forall url stg, url_exists url (st_articles s) = true -> ~ In (EvStage stg url) evs)) /\
  (forall n, r = Ret n -> fst (fetch_from_newsapi E topic language page_size s') = Ret 0).
Proof.
  intros E topic language page_size s.
  pose proof (fetch_step E topic language page_size s) as Hstep.
  pose proof (fetch_rerun_zero E topic language page_size s) as Hrerun.
  destruct (fetch_from_newsapi E topic language page_size s) as [r s'].
  destruct Hstep as (added & evs & Ha & Hf & He & Hev & Hc).
  split; [|split].
  - exists added. split; [exact Ha|]. split; [exact Hf|].
    intros n Hn. rewrite (Hc n Hn). lia.
  - exists evs. split; [exact He | exact Hev].
  - intros n Hn. subst r. exact (Hrerun n s' eq_refl).
Qed.

(** ** Retrieval *)

Section SortFacts.
Context {A : Type} (key : A -> float).

Lemma in_insert_asc : forall x l y, In y (insert_asc key x l) <-> x = y \/ In y l.
Proof.
  intros x l y. induction l as [|z l IH]; simpl.
  - tauto.
  - destruct (PrimFloat.ltb (key z) (key x)); simpl; rewrite ?IH; tauto.
Qed.

Lemma in_sort_asc : forall l y, In y (sort_asc key l) <-> In y l.
Proof.
  induction l as [|x l IH]; intros y; simpl; [tauto|].
  rewrite in_insert_asc, IH. tauto.
Qed.

Lemma in_sort_desc : forall l y, In y (sort_desc key l) <-> In y l.
Proof.
  intros l y. unfold sort_desc. rewrite <- in_rev, in_sort_asc, <- in_rev. tauto.
Qed.

(** The relation of neighbours in an ascending list. *)
Definition asc_rel (a b : A) : Prop := PrimFloat.ltb (key b) (key a) = false.

Lemma insert_asc_hd : forall y x l,
  HdRel asc_rel y l -> asc_rel y x -> HdRel asc_rel y (insert_asc key x l).
Proof.
  intros y x [|z l] Hhd Hyx; simpl.
  - constructor. exact Hyx.
  - destruct (PrimFloat.ltb (key z) (key x)); constructor; [|exact Hyx].
    inversion Hhd; assumption.
Qed.

Lemma insert_asc_sorted : forall x l,
  (forall y, In y l -> PrimFloat.ltb (key y) (key x) = true -> PrimFloat.ltb (key x) (key y) = false) ->
  Sorted asc_rel l -> Sorted asc_rel (insert_asc key x l).
Proof.
  intros x l. induction l as [|z l IH]; intros Hasym Hs; simpl.
  - repeat constructor.
  - destruct (PrimFloat.ltb (key z) (key x)) eqn:Hzx.
    + inversion Hs as [|? ? Hs' Hhd]; subst. constructor.
      * apply IH; [intros y Hy; apply Hasym; right; exact Hy | exact Hs'].
      * apply insert_asc_hd; [exact Hhd|]. unfold asc_rel. apply Hasym; [left; reflexivity | exact Hzx].
    + constructor; [exact Hs|]. constructor. exact Hzx.
Qed.

Lemma sort_asc_sorted : forall l,
  (forall x y, In x l -> In y l -> PrimFloat.ltb (key y) (key x) = true ->
               PrimFloat.ltb (key x) (key y) = false) ->
  Sorted asc_rel (sort_asc key l).
Proof.
  induction l as [|x l IH]; intros Hasym; simpl; [constructor|].
  apply insert_asc_sorted.
  - intros y Hy. apply Hasym; [left; reflexivity | right; apply in_sort_asc; exact Hy].
  - apply IH. intros a b Ha Hb. apply Hasym; right; assumption.
Qed.

End SortFacts.

Lemma Sorted_snoc : forall {A} (R : A -> A -> Prop) l x,
  Sorted R l -> (forall l0 y, l = l0 ++ [y] -> R y x) -> Sorted R (l ++ [x]).
Proof.
  intros A R l x. induction l as [|a l IH]; intros Hs Hlast; simpl.
  - repeat constructor.
  - inversion Hs as [|? ? Hs' Hhd]; subst. constructor.
    + apply IH; [exact Hs'|]. intros l0 y ->. apply (Hlast (a :: l0) y). reflexivity.
    + destruct l as [|b l]; simpl.
      * constructor. apply (Hlast [] a). reflexivity.
      * constructor. inversion Hhd. assumption.
Qed.

Lemma Sorted_rev : forall {A} (R : A -> A -> Prop) l,
  Sorted R l -> Sorted (fun a b => R b a) (rev l).
Proof.
  intros A R l. induction l as [|a l IH]; intros Hs; simpl; [constructor|].
  inversion Hs as [|? ? Hs' Hhd]; subst.
  apply Sorted_snoc; [exact (IH Hs')|].
  intros l0 y Heq. assert (Hl : l = y :: rev l0).
  { rewrite <- (rev_involutive l), Heq, rev_app_distr. reflexivity. }
  subst l. inversion Hhd. assumption.
Qed.

Lemma Sorted_firstn : forall {A} (R : A -> A -> Prop) k l, Sorted R l -> Sorted R (firstn k l).
Proof.
  intros A R k. induction k as [|k IH]; intros [|a l] Hs; simpl; try constructor.
  - inversion Hs; subst. apply IH. assumption.
  - inversion Hs as [|? ? Hs' Hhd]; subst. destruct k, l; simpl; constructor.
    inversion Hhd. assumption.
Qed.

Lemma Sorted_app_l : forall {A} (R : A -> A -> Prop) l1 l2, Sorted R (l1 ++ l2) -> Sorted R l1.
Proof.
  intros A R l1 l2. induction l1 as [|a l1 IH]; intros Hs; simpl; [constructor|].
  inversion Hs as [|? ? Hs' Hhd]; subst. constructor; [exact (IH Hs')|].
  destruct l1; simpl in *; constructor. inversion Hhd. assumption.
Qed.

Lemma Sorted_impl_in : forall {A} (R R' : A -> A -> Prop) l,
  (forall a b, In a l -> In b l -> R a b -> R' a b) -> Sorted R l -> Sorted R' l.
Proof.
  intros A R R' l. induction l as [|a l IH]; intros Himp Hs; [constructor|].
  inversion Hs as [|? ? Hs' Hhd]; subst. constructor.
  - apply IH; [|exact Hs']. intros x y Hx Hy. apply Himp; right; assumption.
  - destruct l as [|b l]; constructor. inversion Hhd; subst.
    apply Himp; [left; reflexivity | right; left; reflexivity | assumption].
Qed.

Section PositivePrefix.
Context {A : Type} (p : A -> bool).

(** Neighbours [a], [b] with [p b] implying [p a]: the elements satisfying
    [p] come first. *)
Definition chain_rel (a b : A) : Prop := p b = true -> p a = true.

Lemma filter_all_false : forall l, Forall (fun y => p y = false) l -> filter p l = [].
Proof.
  induction l as [|a l IH]; intros H; simpl; [reflexivity|].
  inversion H as [|? ? Ha Hl]; subst. rewrite Ha. exact (IH Hl).
Qed.

Lemma Forall_firstn_sub : forall (P : A -> Prop) k l, Forall P l -> Forall P (firstn k l).
Proof.
  intros P k. induction k as [|k IH]; intros [|a l] H; simpl; try constructor.
  - inversion H; assumption.
  - apply IH. inversion H; assumption.
Qed.

Lemma chain_false : forall l x,
  Sorted chain_rel (x :: l) -> p x = false -> Forall (fun y => p y = false) (x :: l).
Proof.
  induction l as [|y l IH]; intros x Hs Hx.
  - repeat constructor. exact Hx.
  - inversion Hs as [|? ? Hs' Hhd]; subst. inversion Hhd as [|? ? Hxy]; subst.
    constructor; [exact Hx|]. apply IH; [exact Hs'|].
    unfold chain_rel in Hxy. destruct (p y); [|reflexivity].
    rewrite Hxy in Hx by reflexivity. discriminate Hx.
Qed.

Lemma filter_firstn_chain : forall k l,
  Sorted chain_rel l -> filter p (firstn k l) = firstn k (filter p l).
Proof.
  induction k as [|k IH]; intros l Hs; [reflexivity|].
  destruct l as [|x l]; [reflexivity|]. simpl.
  inversion Hs as [|? ? Hs' _]; subst.
  destruct (p x) eqn:Hx.
  - rewrite (IH l Hs'). reflexivity.
  - pose proof (chain_false l x Hs Hx) as Hall. inversion Hall as [|? ? _ Hl]; subst.
    rewrite (filter_all_false l Hl). simpl.
    apply filter_all_false. apply Forall_firstn_sub. exact Hl.
Qed.

Lemma filter_prefix : forall l, Sorted chain_rel l -> exists rest, l = filter p l ++ rest.
Proof.
  induction l as [|x l IH]; intros Hs; [exists []; reflexivity|].
  inversion Hs as [|? ? Hs' _]; subst. simpl.
  destruct (p x) eqn:Hx.
  - destruct (IH Hs') as [rest Hr]. exists rest. simpl. rewrite <- Hr. reflexivity.
  - pose proof (chain_false l x Hs Hx) as Hall. inversion Hall as [|? ? _ Hl]; subst.
    rewrite (filter_all_false l Hl). exists (x :: l). reflexivity.
Qed.

End PositivePrefix.

Lemma weak_order_on_spec : forall l, weak_order_on l = true ->
  forall x y z, In x l -> In y l -> In z l ->
    (PrimFloat.ltb x y = true -> PrimFloat.ltb y x = false) /\
    (PrimFloat.ltb x z = true -> PrimFloat.ltb x y = true \/ PrimFloat.ltb y z = true).
Proof.
  intros l H x y z Hx Hy Hz. unfold weak_order_on in H.
  rewrite forallb_forall in H. specialize (H x Hx).
  rewrite forallb_forall in H. specialize (H y Hy).
  apply andb_true_iff in H as [Ha Ht]. rewrite forallb_forall in Ht. specialize (Ht z Hz).
  split.
  - intros Hxy. rewrite Hxy in Ha. simpl in Ha. apply negb_true_iff. exact Ha.
  - intros Hxz. rewrite Hxz in Ht. simpl in Ht. apply orb_true_iff. exact Ht.
Qed.

Lemma score_articles_sim : forall q arts,
  Forall (fun pr => article_sim q (snd pr) = fst pr) (score_articles q arts).
Proof.
  intros q arts. unfold score_articles. induction arts as [|a arts IH]; simpl; [constructor|].
  apply Forall_app. split; [|exact IH].
  destruct (a_embedding a) as [e|] eqn:He; [|constructor].
  destruct (emb_truthy e); constructor; [|constructor].
  unfold article_sim. simpl. rewrite He. reflexivity.
Qed.

Lemma Sorted_map : forall {A B} (R : B -> B -> Prop) (f : A -> B) l,
  Sorted (fun a b => R (f a) (f b)) l -> Sorted R (map f l).
Proof.
  intros A B R f l. induction l as [|a l IH]; intros Hs; simpl; [constructor|].
  inversion Hs as [|? ? Hs' Hhd]; subst. constructor; [exact (IH Hs')|].
  destruct l as [|b l]; simpl; constructor. inversion Hhd; assumption.
Qed.

Lemma in_firstn_sub : forall {A} k (l : list A) x, In x (firstn k l) -> In x l.
Proof.
  intros A k l x Hx. rewrite <- (firstn_skipn k l). apply in_or_app. left. exact Hx.
Qed.

(** The ranked list: [scored] sorted by decreasing similarity, and the
    similarity of each entry is that of its article. *)
Lemma sort_desc_scored : forall q arts,
  weak_order_on (0%float :: map fst (score_articles q arts)) = true ->
  Sorted (fun a b => PrimFloat.ltb (fst a) (fst b) = false) (sort_desc fst (score_articles q arts)) /\
  Sorted (chain_rel (fun p => pos (fst p))) (sort_desc fst (score_articles q arts)) /\
  Forall (fun pr => article_sim q (snd pr) = fst pr) (sort_desc fst (score_articles q arts)).
Proof.
  intros q arts Hwo.
  pose proof (weak_order_on_spec _ Hwo) as Hw.
  assert (Hin : forall pr, In pr (sort_desc fst (score_articles q arts)) ->
                 In (fst pr) (0%float :: map fst (score_articles q arts))).
  { intros pr Hpr. right. apply in_map. apply (in_sort_desc fst). exact Hpr. }
  assert (Hdesc : Sorted (fun a b => PrimFloat.ltb (fst a) (fst b) = false)
                         (sort_desc fst (score_articles q arts))).
  { unfold sort_desc. apply (Sorted_rev (asc_rel fst)). apply sort_asc_sorted.
    intros x y Hx Hy Hyx. rewrite <- in_rev in Hx, Hy.
    apply (Hw (fst y) (fst x) (fst x)); [right; apply in_map; exact Hy
                                        | right; apply in_map; exact Hx
                                        | right; apply in_map; exact Hx
                                        | exact Hyx]. }
  split; [exact Hdesc|]. split.
  - refine (Sorted_impl_in _ _ _ _ Hdesc). intros a b Ha Hb Hab.
    unfold chain_rel, pos. intros Hb'. simpl in Hab.
    destruct (proj2 (Hw 0%float (fst a) (fst b) (or_introl eq_refl) (Hin a Ha) (Hin b Hb)) Hb')
      as [H | H]; [exact H|]. rewrite H in Hab. discriminate Hab.
  - apply Forall_forall. intros pr Hpr. apply (proj1 (in_sort_desc fst _ _)) in Hpr.
    exact (proj1 (Forall_forall _ _) (score_articles_sim q arts) pr Hpr).
Qed.

(** C2 (amended): for [top_k >= 0], and when [<] orders the similarities
    and [0] as a strict weak order (it does whenever no similarity is NaN),
    [retrieve_relevant_articles] returns [] on the empty-vector sentinel and
    otherwise at most [top_k] articles, each with similarity [> 0], in
    non-increasing order of similarity, equal to dropping the entries with
    similarity [<= 0] from the ranked list before taking its first [top_k]. *)
Theorem retrieve_ranking : forall E arts query top_k,
  0 <= top_k ->
  weak_order_on (0%float :: map fst (score_articles (generate_embedding (encode E) query) arts))
    = true ->
  let q := generate_embedding (encode E) query in
  let res := retrieve_relevant_articles E arts query top_k in
  (is_sentinel q = true -> res = []) /\
  Z.of_nat (List.length res) <= top_k /\
  Forall (fun a => pos (article_sim q a) = true) res /\
  Sorted (fun a b => PrimFloat.ltb (article_sim q a) (article_sim q b) = false) res /\
  (is_sentinel q = false ->
   res = map snd (py_slice_to top_k
                    (filter (fun p => pos (fst p)) (sort_desc fst (score_articles q arts))))).
Proof.
  intros E arts query top_k Hk Hwo q res.
  unfold res, retrieve_relevant_articles. fold q.
  destruct (is_sentinel q) eqn:Hsent.
  - split; [reflexivity|]. simpl. split; [lia|]. split; [constructor|].
    split; [constructor|]. discriminate.
  - destruct (sort_desc_scored q arts Hwo) as [Hdesc [Hchain Hsim]].
    set (L := sort_desc fst (score_articles q arts)) in *.
    set (P := fun p : float * article => pos (fst p)).
    unfold py_slice_to. rewrite (proj2 (Z.leb_le 0 top_k) Hk).
    rewrite (filter_firstn_chain P (Z.to_nat top_k) L Hchain).
    assert (Hsub : forall pr, In pr (firstn (Z.to_nat top_k) (filter P L)) ->
                   In pr L /\ P pr = true).
    { intros pr Hpr. apply in_firstn_sub, filter_In in Hpr. exact Hpr. }
    split; [discriminate|]. split; [|split; [|split]].
    + rewrite length_map. pose proof (firstn_le_length (Z.to_nat top_k) (filter P L)). lia.
    + apply Forall_map, Forall_forall. intros pr Hpr.
      destruct (Hsub pr Hpr) as [HL HP].
      rewrite (proj1 (Forall_forall _ _) Hsim pr HL). exact HP.
    + apply (Sorted_map (fun a b => PrimFloat.ltb (article_sim q a) (article_sim q b) = false)).
      destruct (filter_prefix P L Hchain) as [rest Hrest].
      assert (Hf : Sorted (fun a b => PrimFloat.ltb (fst a) (fst b) = false) (filter P L)).
      { apply (Sorted_app_l _ _ rest). rewrite <- Hrest. exact Hdesc. }
      refine (Sorted_impl_in _ _ _ _ (Sorted_firstn _ (Z.to_nat top_k) _ Hf)).
      intros a b Ha Hb Hab.
      rewrite (proj1 (Forall_forall _ _) Hsim a (proj1 (Hsub a Ha))).
      rewrite (proj1 (Forall_forall _ _) Hsim b (proj1 (Hsub b Hb))).
      exact Hab.
    + intros _. reflexivity.
Qed.

Lemma retrieve_ranking_witness :
  retrieve_relevant_articles (env_query (fun _ => [1.0; 0.0]%float))
    [article_emb (lit "u1") [1.0; 0.0]%float; article_emb (lit "u2") [0.0; 1.0]%float;
     article_emb (lit "u3") [-1.0; 0.0]%float; article_emb (lit "u4") [1.0; 1.0]%float]
    (lit "markets") 2
  = [article_emb (lit "u1") [1.0; 0.0]%float; article_emb (lit "u4") [1.0; 1.0]%float] /\
  Z.of_nat (List.length (retrieve_relevant_articles (env_query (fun _ => [1.0; 0.0]%float))
    [article_emb (lit "u1") [1.0; 0.0]%float; article_emb (lit "u2") [0.0; 1.0]%float;
     article_emb (lit "u3") [-1.0; 0.0]%float; article_emb (lit "u4") [1.0; 1.0]%float]
    (lit "markets") 2)) <= 2.
Proof.
  split; [vm_compute; reflexivity|].
  exact (proj1 (proj2 (retrieve_ranking (env_query (fun _ => [1.0; 0.0]%float))
    [article_emb (lit "u1") [1.0; 0.0]%float; article_emb (lit "u2") [0.0; 1.0]%float;
     article_emb (lit "u3") [-1.0; 0.0]%float; article_emb (lit "u4") [1.0; 1.0]%float]
    (lit "markets") 2 ltac:(lia) ltac:(vm_compute; reflexivity)))).
Defined.

(** C2, as stated, fails for a negative [top_k]: [scored[:-1]] drops the
    last ranked entry before the [sim > 0] filter, so the call returns one
    article (more than [top_k = -1]), while filtering first and then
    truncating gives []. *)
Lemma retrieve_negative_top_k :
  retrieve_relevant_articles (env_query (fun _ => [1.0]%float))
    [article_emb (lit "a") [1.0]%float; article_emb (lit "b") [-1.0]%float] (lit "q") (-1)
  = [article_emb (lit "a") [1.0]%float] /\
  map snd (py_slice_to (-1)
    (filter (fun p => pos (fst p))
       (sort_desc fst (score_articles (EJson [1.0]%float)
          [article_emb (lit "a") [1.0]%float; article_emb (lit "b") [-1.0]%float])))) = [] /\
  ~ (Z.of_nat (List.length (retrieve_relevant_articles (env_query (fun _ => [1.0]%float))
       [article_emb (lit "a") [1.0]%float; article_emb (lit "b") [-1.0]%float] (lit "q") (-1)))
     <= -1).
Proof.
  split; [vm_compute; reflexivity|]. split; [vm_compute; reflexivity|].
  vm_compute. intros H. apply H. reflexivity.
Qed.

(** * Further properties of the code *)

(** ** Python string helpers *)

Lemma lstrip_suffix : forall s, exists w, s = w ++ lstrip s.
Proof.
  induction s as [|c s IH]; simpl; [exists []; reflexivity|].
  destruct (py_isspace c).
  - destruct IH as [w Hw]. exists (c :: w). simpl. rewrite <- Hw. reflexivity.
  - exists []. reflexivity.
Qed.

Lemma lstrip_idem : forall s, lstrip (lstrip s) = lstrip s.
Proof.
  induction s as [|c s IH]; simpl; [reflexivity|].
  destruct (py_isspace c) eqn:Hc; [exact IH|]. simpl. rewrite Hc. reflexivity.
Qed.

Lemma lstrip_snoc : forall x c, py_isspace c = false -> lstrip (x ++ [c]) = lstrip x ++ [c].
Proof.
  induction x as [|a x IH]; intros c Hc; simpl.
  - rewrite Hc. reflexivity.
  - destruct (py_isspace a); [exact (IH c Hc)|]. reflexivity.
Qed.

Lemma lstrip_head : forall s, lstrip s = [] \/ exists c t, lstrip s = c :: t /\ py_isspace c = false.
Proof.
  induction s as [|c s IH]; simpl; [left; reflexivity|].
  destruct (py_isspace c) eqn:Hc; [exact IH|]. right. exists c, s. auto.
Qed.

Lemma strip_idem : forall s, strip (strip s) = strip s.
Proof.
  intros s. unfold strip.
  destruct (lstrip_head s) as [H | (c & t & H & Hc)]; rewrite H; [reflexivity|].
  change (rev (c :: t)) with (rev t ++ [c]). rewrite (lstrip_snoc _ _ Hc).
  set (u := lstrip (rev t)).
  rewrite rev_app_distr. change (rev [c] ++ rev u) with (c :: rev u).
  change (lstrip (c :: rev u)) with (if py_isspace c then lstrip (rev u) else c :: rev u).
  rewrite Hc. change (rev (c :: rev u)) with (rev (rev u) ++ [c]).
  rewrite rev_involutive, (lstrip_snoc _ _ Hc). unfold u. rewrite lstrip_idem, ?rev_app_distr. reflexivity.
Qed.

(** [s.strip()] is a segment of [s]. *)
Lemma strip_segment : forall s, exists a b, s = a ++ strip s ++ b.
Proof.
  intros s. unfold strip.
  destruct (lstrip_suffix s) as [w1 H1].
  destruct (lstrip_suffix (rev (lstrip s))) as [w2 H2].
  exists w1, (rev w2).
  assert (Ht : lstrip s = rev (lstrip (rev (lstrip s))) ++ rev w2).
  { rewrite <- rev_app_distr, <- H2, rev_involutive. reflexivity. }
  rewrite H1 at 1. rewrite Ht at 1. reflexivity.
Qed.

Lemma in_strip : forall s x, In x (strip s) -> In x s.
Proof.
  intros s x Hx. destruct (strip_segment s) as (a & b & H). rewrite H.
  apply in_or_app. right. apply in_or_app. left. exact Hx.
Qed.

Lemma is_prefix_app : forall p a b, is_prefix p a = true -> is_prefix p (a ++ b) = true.
Proof.
  induction p as [|x p IH]; intros [|y a] b H; simpl in *; try discriminate; auto.
  apply andb_true_iff in H as [H1 H2]. rewrite H1, (IH a b H2). reflexivity.
Qed.

Lemma py_contains_app_l : forall p a b, py_contains p a = true -> py_contains p (a ++ b) = true.
Proof.
  intros p a b. induction a as [|x a IH]; intros H.
  - simpl in H. rewrite orb_false_r in H. pose proof (is_prefix_app p [] b H) as Hb.
    simpl in Hb. destruct b; simpl; rewrite Hb; reflexivity.
  - simpl in H |- *. apply orb_true_iff in H as [H|H].
    + pose proof (is_prefix_app p (x :: a) b H) as Hb. simpl in Hb. rewrite Hb. reflexivity.
    + rewrite (IH H), orb_true_r. reflexivity.
Qed.

Lemma py_contains_app_r : forall p a b, py_contains p b = true -> py_contains p (a ++ b) = true.
Proof.
  intros p a b H. induction a as [|x a IH]; [exact H|].
  simpl. rewrite IH, orb_true_r. reflexivity.
Qed.

Lemma py_contains_strip : forall p s, py_contains p (strip s) = true -> py_contains p s = true.
Proof.
  intros p s H. destruct (strip_segment s) as (a & b & Hs). rewrite Hs.
  apply py_contains_app_r, py_contains_app_l. exact H.
Qed.

Lemma in_skipn_sub : forall {A} k (l : list A) x, In x (skipn k l) -> In x l.
Proof.
  intros A k l x Hx. rewrite <- (firstn_skipn k l). apply in_or_app. right. exact Hx.
Qed.

Lemma is_prefix_length : forall p s, is_prefix p s = true -> (List.length p <= List.length s)%nat.
Proof.
  induction p as [|x p IH]; intros [|y s] H; simpl in *; try discriminate; try lia.
  apply andb_true_iff in H as [_ H]. specialize (IH s H). lia.
Qed.

Lemma replace_in : forall f old new s y,
  In y (replace_fuel f old new s) -> In y s \/ In y new.
Proof.
  induction f as [|f IH]; intros old new s y Hy; simpl in Hy; [left; exact Hy|].
  destruct s as [|c s']; [contradiction|].
  destruct (is_prefix old (c :: s')).
  - apply in_app_or in Hy as [Hy|Hy]; [right; exact Hy|].
    destruct (IH _ _ _ _ Hy) as [H|H]; [left; exact (in_skipn_sub _ _ _ H) | right; exact H].
  - destruct Hy as [<-|Hy]; [left; left; reflexivity|].
    destruct (IH _ _ _ _ Hy) as [H|H]; [left; right; exact H | right; exact H].
Qed.

Lemma replace_char_gone : forall f c new s,
  ~ In c new -> (List.length s < f)%nat -> ~ In c (replace_fuel f [c] new s).
Proof.
  induction f as [|f IH]; intros c new s Hn Hl; [lia|].
  destruct s as [|x s']; simpl; [tauto|].
  destruct (c =? x) eqn:Hx; simpl.
  - intros Hin. apply in_app_or in Hin as [Hin|Hin]; [exact (Hn Hin)|].
    simpl in Hl. exact (IH c new s' Hn ltac:(lia) Hin).
  - intros [Hin|Hin].
    + subst x. rewrite Z.eqb_refl in Hx. discriminate.
    + simpl in Hl. exact (IH c new s' Hn ltac:(lia) Hin).
Qed.

Lemma replace_shrinks : forall f old new s,
  (List.length new < List.length old)%nat -> (List.length s < f)%nat ->
  (List.length (replace_fuel f old new s) <= List.length s)%nat /\
  (py_contains old s = true -> (List.length (replace_fuel f old new s) < List.length s)%nat).
Proof.
  induction f as [|f IH]; intros old new s Hon Hl; [lia|].
  destruct s as [|c s']; simpl.
  - split; [lia|]. intros H. rewrite orb_false_r in H.
    destruct old; simpl in *; [lia | discriminate].
  - destruct (is_prefix old (c :: s')) eqn:Hp.
    + pose proof (is_prefix_length _ _ Hp) as Hlen.
      assert (Hsk : (List.length (skipn (List.length old) (c :: s')) < f)%nat).
      { rewrite length_skipn. cbn [List.length] in *. lia. }
      destruct (IH old new _ Hon Hsk) as [H1 _].
      rewrite length_app. rewrite length_skipn in H1. cbn [List.length] in *.
      split; [lia|]. intros _. lia.
    + simpl in Hl. destruct (IH old new s' Hon ltac:(lia)) as [H1 H2]. simpl.
      split; [lia|]. intros H. specialize (H2 H). lia.
Qed.

Lemma collapse_no_pattern : forall f s,
  (List.length s < f)%nat -> py_contains [10; 10; 45] (collapse_fuel f s) = false.
Proof.
  induction f as [|f IH]; intros s Hl; [lia|]. simpl.
  destruct (py_contains [10; 10; 45] s) eqn:Hc; [|exact Hc].
  apply IH. unfold py_replace.
  destruct (replace_shrinks (S (List.length s)) [10; 10; 45] [10; 45] s ltac:(simpl; lia) ltac:(lia))
    as [_ H]. specialize (H Hc). lia.
Qed.

Lemma collapse_in : forall f s y, In y (collapse_fuel f s) -> In y s \/ In y [10; 45].
Proof.
  induction f as [|f IH]; intros s y Hy; simpl in Hy; [left; exact Hy|].
  destruct (py_contains [10; 10; 45] s); [|left; exact Hy].
  destruct (IH _ _ Hy) as [H|H]; [|right; exact H].
  unfold py_replace in H. exact (replace_in _ _ _ _ _ H).
Qed.

(** With the OpenAI key set and the chat call answering [content], [summarize_article] returns a text with no surrounding whitespace, no bullet character U+2022 and no blank line followed by a dash. *)
Theorem summarize_article_clean : forall key chat title text content,
  env_set key = true ->
  chat (summary_prompt title (firstn 6000 text)) = Some content ->
  exists summary,
    summarize_article key chat title text = Ret summary /\
    strip summary = summary /\
    ~ In 8226 summary /\
    py_contains (nl ++ nl ++ lit "-") summary = false.
Proof.
  intros key chat title text content Hk Hc.
  unfold summarize_article. rewrite Hk, Hc. simpl.
  eexists. split; [reflexivity|]. unfold clean_summary. cbv zeta.
  set (c1 := py_replace (py_replace (strip content) (lit ". - ") (nl ++ lit ". - ")) [8226] (lit "- ")).
  split; [apply strip_idem|]. split.
  - intros Hin. apply in_strip, collapse_in in Hin as [Hin|Hin].
    + unfold c1, py_replace in Hin. revert Hin. apply replace_char_gone; [simpl; intuition discriminate | lia].
    + simpl in Hin. intuition discriminate.
  - apply not_true_is_false. intros H.
    apply py_contains_strip in H.
    match type of H with py_contains ?p _ = true => change p with [10; 10; 45] in H end.
    rewrite (collapse_no_pattern (S (List.length c1)) c1 ltac:(lia)) in H. discriminate.
Qed.

(** A text returned by [extract_full_text] has at least 200 characters and no surrounding whitespace. *)
Theorem extract_full_text_long_stripped : forall E url text,
  extract_full_text E url = Some text ->
  (200 <= List.length text)%nat /\ strip text = text.
Proof.
  intros E url text. unfold extract_full_text.
  destruct (np_text E url) as [raw|]; [|discriminate].
  destruct (Nat.ltb (List.length (strip raw)) 200) eqn:Hl; [discriminate|].
  intros H. injection H as <-. apply Nat.ltb_ge in Hl. split; [exact Hl | apply strip_idem].
Qed.

(** ** User-article routes *)

Lemma get_or_create_eq : forall user_id article_id s,
  get_or_create_user_article user_id article_id s = (Ret tt, goc_state user_id article_id s).
Proof.
  intros user_id article_id s. unfold get_or_create_user_article, goc_state, bind,
    get_user_articles, utcnow, insert_user_article, ret.
  destruct (find (ua_matches user_id article_id) (st_user_articles s)); reflexivity.
Qed.

Lemma find_update_first : forall p f l,
  (forall x, p (f x) = p x) -> find p (update_first p f l) = option_map f (find p l).
Proof.
  intros p f l Hf. induction l as [|x l IH]; simpl; [reflexivity|].
  destruct (p x) eqn:Hx; simpl.
  - rewrite Hf, Hx. reflexivity.
  - rewrite Hx. exact IH.
Qed.

Lemma find_app_none : forall {A} (p : A -> bool) l1 l2,
  find p l1 = None -> find p (l1 ++ l2) = find p l2.
Proof.
  intros A p l1 l2. induction l1 as [|x l1 IH]; simpl; [reflexivity|].
  destruct (p x); [discriminate | exact IH].
Qed.

Lemma find_goc : forall user_id article_id s,
  find (ua_matches user_id article_id) (st_user_articles (goc_state user_id article_id s)) =
  Some (match find (ua_matches user_id article_id) (st_user_articles s) with
        | Some ua => ua
        | None => mkUserArticle user_id article_id [] None None (st_clock s)
        end).
Proof.
  intros user_id article_id s. unfold goc_state.
  destruct (find (ua_matches user_id article_id) (st_user_articles s)) eqn:Hf; [exact Hf|].
  simpl. rewrite (find_app_none _ _ _ Hf). simpl. unfold ua_matches. simpl. rewrite !Z.eqb_refl. reflexivity.
Qed.

Lemma map_update_first : forall {B} (g : user_article -> B) p f l,
  (forall x, g (f x) = g x) -> map g (update_first p f l) = map g l.
Proof.
  intros B g p f l Hf. induction l as [|x l IH]; simpl; [reflexivity|].
  destruct (p x); simpl; rewrite ?Hf, ?IH; reflexivity.
Qed.

Lemma Forall_update_first : forall (P : user_article -> Prop) p f l,
  (forall x, P x -> P (f x)) -> Forall P l -> Forall P (update_first p f l).
Proof.
  intros P p f l Hf Hl. induction Hl as [|x l Hx Hl IH]; simpl; [constructor|].
  destruct (p x); constructor; auto.
Qed.

Lemma ua_matches_key : forall user_id article_id ua,
  ua_matches user_id article_id ua = true <-> ua_key ua = (user_id, article_id).
Proof.
  intros user_id article_id ua. unfold ua_matches, ua_key.
  rewrite andb_true_iff, !Z.eqb_eq. split; [intros [-> ->]; reflexivity|].
  intros H. injection H as -> ->. auto.
Qed.

Lemma goc_wf : forall user_id article_id s,
  ua_wf (st_user_articles s) -> ua_wf (st_user_articles (goc_state user_id article_id s)).
Proof.
  intros user_id article_id s [Hk Ha]. unfold goc_state.
  destruct (find (ua_matches user_id article_id) (st_user_articles s)) eqn:Hf; [split; assumption|].
  simpl. split.
  - rewrite map_app. simpl. apply NoDup_app; [exact Hk | repeat constructor; simpl; tauto |].
    intros k Hin [Hk'|[]]. subst k. apply in_map_iff in Hin as (ua & Hua & Hin).
    pose proof (find_none _ _ Hf ua Hin) as Hn. unfold ua_key in Hua. simpl in Hua.
    apply ua_matches_key in Hua. congruence.
  - apply Forall_app. split; [exact Ha|]. repeat constructor.
Qed.

Lemma add_user_action_nodup : forall ua tag t,
  NoDup (ua_action ua) -> NoDup (ua_action (add_user_action ua tag t)).
Proof.
  intros ua tag t H. unfold add_user_action. simpl.
  destruct (existsb (str_eqb tag) (ua_action ua)) eqn:He; [exact H|].
  apply NoDup_app; [exact H | repeat constructor; simpl; tauto |].
  intros x Hx [<-|[]]. assert (existsb (str_eqb tag) (ua_action ua) = true) as Hc.
  { apply existsb_exists. exists tag. split; [exact Hx | apply str_eqb_eq; reflexivity]. }
  congruence.
Qed.

Lemma update_wf : forall user_id article_id f s,
  (forall ua, ua_key (f ua) = ua_key ua) ->
  (forall ua, NoDup (ua_action ua) -> NoDup (ua_action (f ua))) ->
  ua_wf (st_user_articles s) ->
  ua_wf (st_user_articles (snd (update_user_article user_id article_id f s))).
Proof.
  intros user_id article_id f s Hkey Hnd [Hk Ha]. simpl. split.
  - rewrite map_update_first; [exact Hk | exact Hkey].
  - apply Forall_update_first; [exact Hnd | exact Ha].
Qed.

Lemma record_action_eq : forall user_id article_id tag s,
  record_action user_id article_id tag s =
  (Ret tt, snd (update_user_article user_id article_id
                  (fun ua => add_user_action ua tag (st_clock (goc_state user_id article_id s)))
                  (mkState (st_articles (goc_state user_id article_id s))
                           (st_user_articles (goc_state user_id article_id s))
                           (st_chat (goc_state user_id article_id s))
                           (Z.succ (st_clock (goc_state user_id article_id s)))
                           (st_trace (goc_state user_id article_id s))))).
Proof.
  intros. unfold record_action, bind. rewrite get_or_create_eq. reflexivity.
Qed.

Lemma record_action_wf : forall user_id article_id tag s,
  ua_wf (st_user_articles s) ->
  ua_wf (st_user_articles (snd (record_action user_id article_id tag s))).
Proof.
  intros user_id article_id tag s H. rewrite record_action_eq. simpl snd.
  apply update_wf; [reflexivity | intros; apply add_user_action_nodup; assumption |].
  exact (goc_wf user_id article_id s H).
Qed.

(** The five article routes keep the user-article table well formed: at most one row per (user, article) pair, and no row lists an action twice. *)
Theorem user_article_routes_wf : forall E user_id article_id form s,
  ua_wf (st_user_articles s) ->
  ua_wf (st_user_articles (snd (article_detail E user_id article_id s))) /\
  ua_wf (st_user_articles (snd (like_article user_id article_id s))) /\
  ua_wf (st_user_articles (snd (open_original user_id article_id s))) /\
  ua_wf (st_user_articles (snd (rate_article user_id article_id form s))) /\
  ua_wf (st_user_articles (snd (save_notes user_id article_id form s))).
Proof.
  intros E user_id article_id form s H.
  unfold article_detail, like_article, open_original, rate_article, save_notes, bind, get_articles.
  destruct (article_by_id (st_articles s) article_id); [|repeat split; apply H].
  pose proof (record_action_wf user_id article_id (lit "viewed") s H).
  pose proof (record_action_wf user_id article_id (lit "liked") s H).
  pose proof (record_action_wf user_id article_id (lit "linked") s H).
  pose proof (goc_wf user_id article_id s H) as Hg.
  rewrite get_or_create_eq.
  split; [|split; [|split; [|split]]].
  - destruct (record_action user_id article_id (lit "viewed") s) as [[u|e] s1]; assumption.
  - destruct (record_action user_id article_id (lit "liked") s) as [[u|e] s1]; assumption.
  - destruct (record_action user_id article_id (lit "linked") s) as [[u|e] s1]; assumption.
  - destruct (match form with Some r => py_int r | None => None end); [|exact Hg].
    apply (update_wf user_id article_id
             (fun ua => mkUserArticle (ua_user_id ua) (ua_article_id ua) (ua_action ua)
                          (Some (Z.max 1 (Z.min 10 z))) (ua_notes ua)
                          (st_clock (goc_state user_id article_id s)))); [reflexivity | auto |].
    exact Hg.
  - apply (update_wf user_id article_id
             (fun ua => mkUserArticle (ua_user_id ua) (ua_article_id ua) (ua_action ua)
                          (ua_rating ua) (Some (strip (match form with Some n => n | None => [] end)))
                          (st_clock (goc_state user_id article_id s)))); [reflexivity | auto |].
    exact Hg.
Qed.

(** For an article id with no row, each of the five article routes aborts with 404 and leaves the state unchanged. *)
Theorem article_routes_not_found : forall E user_id article_id form s,
  article_by_id (st_articles s) article_id = None ->
  article_detail E user_id article_id s = (Raise NotFound, s) /\
  like_article user_id article_id s = (Raise NotFound, s) /\
  open_original user_id article_id s = (Raise NotFound, s) /\
  rate_article user_id article_id form s = (Raise NotFound, s) /\
  save_notes user_id article_id form s = (Raise NotFound, s).
Proof.
  intros E user_id article_id form s H.
  unfold article_detail, like_article, open_original, rate_article, save_notes, bind, get_articles.
  rewrite H. repeat split.
Qed.

(** The row of the key before a route ran, as [get_or_create_user_article]
    leaves it. *)
Lemma record_action_find : forall user_id article_id tag s,
  find (ua_matches user_id article_id)
       (st_user_articles (snd (record_action user_id article_id tag s))) =
  Some (add_user_action
          (match find (ua_matches user_id article_id) (st_user_articles s) with
           | Some ua => ua
           | None => mkUserArticle user_id article_id [] None None (st_clock s)
           end) tag (st_clock (goc_state user_id article_id s))).
Proof.
  intros user_id article_id tag s. rewrite record_action_eq. simpl.
  rewrite find_update_first; [|reflexivity]. rewrite find_goc. reflexivity.
Qed.

(** For an existing article, [article_detail], [like_article] and [open_original] return the page, the redirect and the original URL, and the user's row lists the previous actions with [viewed], [liked] or [linked] appended once. *)
Theorem article_actions_recorded : forall E user_id article_id s a,
  article_by_id (st_articles s) article_id = Some a ->
  let old := match find (ua_matches user_id article_id) (st_user_articles s) with
             | Some ua => ua_action ua
             | None => []
             end in
  let tagged (tag : str) := if existsb (str_eqb tag) old then old else old ++ [tag] in
  (fst (article_detail E user_id article_id s) = Ret (a, extract_full_text E (a_url a)) /\
   option_map ua_action (find (ua_matches user_id article_id)
     (st_user_articles (snd (article_detail E user_id article_id s)))) = Some (tagged (lit "viewed"))) /\
  (fst (like_article user_id article_id s) = Ret (RedirectDetail article_id None) /\
   option_map ua_action (find (ua_matches user_id article_id)
     (st_user_articles (snd (like_article user_id article_id s)))) = Some (tagged (lit "liked"))) /\
  (fst (open_original user_id article_id s) = Ret (a_url a) /\
   option_map ua_action (find (ua_matches user_id article_id)
     (st_user_articles (snd (open_original user_id article_id s)))) = Some (tagged (lit "linked"))).
Proof.
  intros E user_id article_id s a H old tagged.
  unfold article_detail, like_article, open_original, bind, get_articles. rewrite H.
  rewrite !record_action_eq. cbv beta iota.
  assert (Hrow : forall tag, option_map ua_action (find (ua_matches user_id article_id)
     (st_user_articles (snd (record_action user_id article_id tag s)))) = Some (tagged tag)).
  { intros tag. rewrite record_action_find. simpl. unfold tagged, old.
    destruct (find (ua_matches user_id article_id) (st_user_articles s)); reflexivity. }
  pose proof (Hrow (lit "viewed")) as Hv. pose proof (Hrow (lit "liked")) as Hl.
  pose proof (Hrow (lit "linked")) as Ho. rewrite !record_action_eq in Hv, Hl, Ho.
  repeat split; assumption.
Qed.


(** For an existing article, [save_notes] redirects to the article and stores the stripped form text (empty when absent) as the notes, keeping the row's rating and actions. *)
Theorem save_notes_stores_stripped : forall user_id article_id form s a,
  article_by_id (st_articles s) article_id = Some a ->
  let (res, s') := save_notes user_id article_id form s in
  res = Ret (RedirectDetail article_id None) /\
  exists ua,
    find (ua_matches user_id article_id) (st_user_articles s') = Some ua /\
    ua_notes ua = Some (strip (match form with Some n => n | None => [] end)) /\
    ua_rating ua = match find (ua_matches user_id article_id) (st_user_articles s) with
                   | Some old => ua_rating old | None => None end /\
    ua_action ua = match find (ua_matches user_id article_id) (st_user_articles s) with
                   | Some old => ua_action old | None => [] end.
Proof.
  intros user_id article_id form s a Ha.
  unfold save_notes, bind, get_articles. rewrite Ha, get_or_create_eq.
  unfold utcnow, update_user_article, ret. simpl.
  split; [reflexivity|].
  rewrite find_update_first; [|intros x; reflexivity].
  rewrite find_goc. eexists. split; [reflexivity|].
  destruct (find _ (st_user_articles s)); simpl; repeat split.
Qed.

(** ** Topics *)

Lemma py_split_no_sep : forall sep s p, In p (py_split_char sep s) -> ~ In sep p.
Proof.
  intros sep s. induction s as [|c s IH]; intros p Hp; simpl in Hp.
  - destruct Hp as [<-|[]]. simpl. tauto.
  - destruct (c =? sep) eqn:Hc.
    + destruct Hp as [<-|Hp]; [simpl; tauto | exact (IH p Hp)].
    + destruct (py_split_char sep s) as [|q qs] eqn:Hs.
      * destruct Hp as [<-|[]]. simpl. intros [H|[]]. subst. rewrite Z.eqb_refl in Hc. discriminate.
      * destruct Hp as [<-|Hp].
        -- simpl. intros [H|H]; [subst; rewrite Z.eqb_refl in Hc; discriminate|].
           exact (IH q (or_introl eq_refl) H).
        -- exact (IH p (or_intror Hp)).
Qed.

Lemma py_split_none : forall sep t, ~ In sep t -> py_split_char sep t = [t].
Proof.
  intros sep t. induction t as [|c t IH]; intros Ht; simpl; [reflexivity|].
  destruct (c =? sep) eqn:Hc.
  - apply Z.eqb_eq in Hc. subst. exfalso. apply Ht. left. reflexivity.
  - rewrite IH; [reflexivity|]. intros H. apply Ht. right. exact H.
Qed.

Lemma py_split_app : forall sep t r, ~ In sep t ->
  py_split_char sep (t ++ sep :: r) = t :: py_split_char sep r.
Proof.
  intros sep t r. induction t as [|c t IH]; intros Ht; simpl.
  - rewrite Z.eqb_refl. reflexivity.
  - destruct (c =? sep) eqn:Hc.
    + apply Z.eqb_eq in Hc. subst. exfalso. apply Ht. left. reflexivity.
    + rewrite IH; [reflexivity|]. intros H. apply Ht. right. exact H.
Qed.

Lemma py_split_join : forall sel x pre, ~ In 44 pre -> ~ In 44 x ->
  Forall (fun t => ~ In 44 t) sel ->
  py_split_char 44 (pre ++ py_join (lit ", ") (x :: sel)) = (pre ++ x) :: map (fun t => 32 :: t) sel.
Proof.
  induction sel as [|y sel IH]; intros x pre Hpre Hx Hall.
  - simpl. apply py_split_none. intros H. apply in_app_or in H as [H|H]; auto.
  - inversion Hall as [|? ? Hy Hsel]; subst.
    change (py_join (lit ", ") (x :: y :: sel)) with (x ++ [44; 32] ++ py_join (lit ", ") (y :: sel)).
    rewrite app_assoc. change ([44; 32] ++ py_join (lit ", ") (y :: sel))
      with (44 :: ([32] ++ py_join (lit ", ") (y :: sel))).
    rewrite py_split_app.
    + rewrite (IH y [32]); [reflexivity | simpl; intuition discriminate | exact Hy | exact Hsel].
    + intros H. apply in_app_or in H as [H|H]; auto.
Qed.

Lemma strip_space_cons : forall c t, py_isspace c = true -> strip (c :: t) = strip t.
Proof. intros c t Hc. unfold strip. simpl. rewrite Hc. reflexivity. Qed.

(** Every topic parsed from a user's interests is non-empty, stripped and free of commas. *)
Theorem parse_topics_clean : forall interests t,
  In t (parse_topics interests) -> truthy t = true /\ strip t = t /\ ~ In 44 t.
Proof.
  intros interests t Ht. unfold parse_topics in Ht.
  apply in_map_iff in Ht as (p & <- & Hp). apply filter_In in Hp as [Hp Htr].
  split; [exact Htr|]. split; [apply strip_idem|].
  intros H. apply in_strip in H. exact (py_split_no_sep _ _ _ Hp H).
Qed.

Lemma filter_spaced : forall sel,
  Forall (fun t => truthy t = true /\ strip t = t /\ ~ In 44 t) sel ->
  map strip (filter (fun t => truthy (strip t)) (map (fun t => 32 :: t) sel)) = sel.
Proof.
  intros sel Hall. induction Hall as [|y sel (Hyt & Hys & _) Hsel IH]; [reflexivity|].
  simpl. rewrite strip_space_cons by reflexivity. rewrite Hys, Hyt. simpl.
  rewrite strip_space_cons by reflexivity. rewrite Hys, IH. reflexivity.
Qed.

(** Saving a non-empty selection of non-empty, stripped, comma-free topics redirects to [/refresh] and the saved interests parse back to the same list. *)
Theorem select_topics_round_trip : forall u selected_topics,
  selected_topics <> [] ->
  Forall (fun t => truthy t = true /\ strip t = t /\ ~ In 44 t) selected_topics ->
  let '(target, flashed, u') := select_topics_post u selected_topics in
  target = lit "/refresh" /\ parse_topics (u_interests u') = selected_topics.
Proof.
  intros u [|x sel] Hne Hall; [contradiction Hne; reflexivity|].
  unfold select_topics_post. cbv beta iota. split; [reflexivity|]. cbn [u_interests].
  unfold parse_topics.
  inversion Hall as [|? ? Hx Hsel]; subst.
  rewrite <- (app_nil_l (py_join (lit ", ") (x :: sel))).
  rewrite py_split_join; [| simpl; tauto | apply Hx |].
  - simpl app. destruct Hx as (Hxt & Hxs & _). simpl filter. rewrite Hxs, Hxt. simpl map.
    rewrite Hxs, filter_spaced by exact Hsel. reflexivity.
  - eapply Forall_impl; [|exact Hsel]. intros t (_ & _ & H). exact H.
Qed.

(** ** Ingestion: the rows saved *)

Lemma summarize_article_raise_key : forall key chat title text e,
  summarize_article key chat title text = Raise e -> env_set key = false.
Proof.
  unfold summarize_article. intros key chat title text e.
  destruct (env_set key); simpl; [destruct (chat _); discriminate | reflexivity].
Qed.

Lemma analyze_sentiment_is_label : forall chat t l,
  analyze_sentiment chat t = Ret l -> is_label l = true.
Proof.
  unfold analyze_sentiment. intros chat t l.
  destruct (chat _); [|intros H; injection H as <-; reflexivity].
  destruct (is_label (py_lower (strip s))) eqn:Hl; simpl; intros H; injection H as <-;
    [exact Hl | reflexivity].
Qed.

Lemma generate_embedding_json : forall enc text, exists xs, generate_embedding enc text = EJson xs.
Proof.
  intros enc text. unfold generate_embedding.
  destruct (negb (truthy text) || negb (truthy (strip text))); eexists; reflexivity.
Qed.

Lemma truthy_firstn : forall k s, truthy s = true -> truthy (firstn (S k) s) = true.
Proof. intros k [|c s] H; [discriminate | reflexivity]. Qed.

Lemma row_ok_intro : forall topic title author source url p f summary chat sentiment enc text,
  (negb (truthy title) || negb (truthy url)) = false ->
  analyze_sentiment chat summary = Ret sentiment ->
  row_ok topic (mkArticle (firstn 500 title) (firstn 100 author) (firstn 200 source) url topic p f
                          (Some summary) (Some sentiment) (Some (generate_embedding enc text))).
Proof.
  intros topic title author source url p f summary chat sentiment enc text Ht Hs.
  apply orb_false_iff in Ht as [Ht Hu]. apply negb_false_iff in Ht, Hu.
  unfold row_ok; cbn [a_category a_title a_author a_source a_url a_summary a_sentiment a_embedding].
  split; [reflexivity|]. split; [exact (truthy_firstn 499 title Ht)|].
  split; [apply firstn_le_length|]. split; [apply firstn_le_length|].
  split; [apply firstn_le_length|]. split; [exact Hu|].
  split; [eexists; reflexivity|]. split.
  - eexists. split; [reflexivity | exact (analyze_sentiment_is_label _ _ _ Hs)].
  - destruct (generate_embedding_json enc text) as [xs Hx]. exists xs. rewrite Hx. reflexivity.
Qed.

Lemma process_item_shape : forall E topic n it s,
  let (r, s') := process_item E topic n it s in
  (st_articles s' = st_articles s /\ (forall m, r = Ret m -> m = n) /\
   (forall e, r = Raise e -> env_set (openai_api_key E) = false)) \/
  (exists a, st_articles s' = st_articles s ++ [a] /\ r = Ret (n + 1) /\ row_ok topic a /\
   url_exists (a_url a) (st_articles s) = false /\ env_set (openai_api_key E) = true).
Proof.
  intros E topic n it [arts uas ch clk tr].
  unfold process_item. monad_red.
  repeat (split_atomic_match; monad_red).
  all: cbn [st_articles a_url].
  all: try (match goal with H : analyze_sentiment ?c ?t = Raise _ |- _ =>
              destruct (analyze_sentiment_ret c t) as [? Hc]; congruence end).
  all: first
    [ left; split; [reflexivity|]; split;
      [ intros m Hr; first [discriminate Hr | injection Hr as <-; reflexivity]
      | intros ? Hr; first [ discriminate Hr
                           | eapply summarize_article_raise_key; eassumption
                           | match goal with H : analyze_sentiment ?c ?t = Raise _ |- _ =>
                               destruct (analyze_sentiment_ret c t) as [? Hc]; congruence end ] ]
    | right; eexists; split; [reflexivity|]; split; [reflexivity|];
      split; [eapply row_ok_intro; eassumption|]; split; [assumption|];
      eapply summarize_article_ret_key; eassumption
    | idtac ].
Qed.

Lemma url_exists_false_notin : forall url arts,
  url_exists url arts = false -> ~ In url (map a_url arts).
Proof.
  unfold url_exists. intros url arts H Hin.
  apply in_map_iff in Hin as [a [Ha Hin]].
  assert (existsb (fun a => str_eqb (a_url a) url) arts = true) as Ht.
  { apply existsb_exists. exists a. split; [exact Hin|]. apply str_eqb_eq. exact Ha. }
  congruence.
Qed.

Lemma NoDup_snoc : forall (A : Type) (l : list A) (x : A),
  NoDup l -> ~ In x l -> NoDup (l ++ [x]).
Proof.
  intros A l x. induction l as [|y l IH]; intros Hl Hx; simpl.
  - constructor; [intros []|constructor].
  - inversion Hl as [|? ? Hy Hl']; subst. constructor.
    + rewrite in_app_iff. intros [H|[H|[]]]; [exact (Hy H)|]. apply Hx. left. symmetry. exact H.
    + apply IH; [exact Hl'|]. intros H. apply Hx. right. exact H.
Qed.

Lemma process_items_shape : forall E topic items n s,
  let (r, s') := process_items E topic items n s in
  exists added,
    st_articles s' = st_articles s ++ added /\
    Forall (row_ok topic) added /\
    (NoDup (map a_url (st_articles s)) -> NoDup (map a_url (st_articles s'))) /\
    (forall m, r = Ret m -> m = n + Z.of_nat (List.length added)) /\
    (forall e, r = Raise e -> added = [] /\ env_set (openai_api_key E) = false) /\
    (env_set (openai_api_key E) = false -> added = []).
Proof.
  intros E topic items. induction items as [|it rest IH]; intros n s.
  - exists []. rewrite app_nil_r. cbn.
    split; [reflexivity|]. split; [constructor|]. split; [auto|].
    split; [intros m Hm; injection Hm as <-; lia|].
    split; [intros ? Hm; discriminate Hm | reflexivity].
  - cbn [process_items]. unfold bind.
    pose proof (process_item_shape E topic n it s) as Hit.
    destruct (process_item E topic n it s) as [[m|e] s1].
    + specialize (IH m s1). destruct (process_items E topic rest m s1) as [r s'].
      destruct IH as [added [Ha [Hok [Hnd [Hr [He Hk]]]]]].
      destruct Hit as [[H1 [Hm _]]|[a [H1 [Hm [Hrow [Hnew Hkey]]]]]].
      * specialize (Hm m eq_refl). subst m. exists added.
        split; [rewrite Ha, H1; reflexivity|]. split; [exact Hok|].
        split; [intros Hd; apply Hnd; rewrite H1; exact Hd|].
        split; [exact Hr|]. split; [exact He|]. exact Hk.
      * injection Hm as ->. exists (a :: added).
        split; [rewrite Ha, H1, <- app_assoc; reflexivity|].
        split; [constructor; assumption|].
        split.
        { intros Hd. apply Hnd. rewrite H1, map_app. apply NoDup_snoc; [exact Hd|].
          apply url_exists_false_notin. exact Hnew. }
        split; [intros m0 Hm0; rewrite (Hr m0 Hm0); cbn [List.length]; lia|].
        split; [intros e0 He0; destruct (He e0 He0) as [_ Hk0]; congruence|].
        intros Hk0. congruence.
    + destruct Hit as [[H1 [_ He]]|[a [_ [Hm _]]]]; [|discriminate Hm].
      exists []. rewrite app_nil_r.
      split; [exact H1|]. split; [constructor|].
      split; [intros Hd; rewrite H1; exact Hd|].
      split; [intros m0 Hm0; discriminate Hm0|].
      split; [intros e0 He0; split; [reflexivity | exact (He e eq_refl)]|].
      intros _. reflexivity.
Qed.

Lemma fetch_shape : forall E topic language page_size s,
  let (r, s') := fetch_from_newsapi E topic language page_size s in
  exists added,
    st_articles s' = st_articles s ++ added /\
    Forall (row_ok topic) added /\
    (NoDup (map a_url (st_articles s)) -> NoDup (map a_url (st_articles s'))) /\
    (forall m, r = Ret m -> m = Z.of_nat (List.length added)) /\
    (forall e, r = Raise e -> added = [] /\
       (env_set (news_api_key E) = false \/ env_set (openai_api_key E) = false)) /\
    (env_set (openai_api_key E) = false -> added = []).
Proof.
  intros E topic language page_size s. unfold fetch_from_newsapi.
  destruct (env_set (news_api_key E)) eqn:Hnews; cbn [negb].
  - unfold bind, emit. destruct (newsapi_get E topic language page_size) as [|status tr arts];
      [|destruct (negb _)].
    1, 2:
      exists []; cbn; rewrite app_nil_r;
      split; [reflexivity|]; split; [constructor|]; split; [auto|];
      split; [intros m Hm; injection Hm as <-; reflexivity|];
      split; [intros ? Hm; discriminate Hm | reflexivity].
    match goal with |- context [process_items E topic arts 0 ?s0] =>
      pose proof (process_items_shape E topic arts 0 s0) as H;
      destruct (process_items E topic arts 0 s0) as [r s'] end.
    destruct H as [added [Ha [Hok [Hnd [Hr [He Hk]]]]]].
    exists added. cbn [st_articles] in Ha, Hnd.
    split; [exact Ha|]. split; [exact Hok|]. split; [exact Hnd|].
    split; [intros m Hm; rewrite (Hr m Hm); lia|].
    split; [intros e He'; split; [exact (proj1 (He e He')) | right; exact (proj2 (He e He'))]|].
    exact Hk.
  - exists []. cbn. rewrite app_nil_r.
    split; [reflexivity|]. split; [constructor|]. split; [auto|].
    split; [intros m Hm; discriminate Hm|].
    split; [intros ? _; split; [reflexivity | left; reflexivity] | reflexivity].
Qed.



(** [fetch_from_newsapi] keeps the article URLs pairwise distinct. *)
Theorem fetch_from_newsapi_urls_unique : forall E topic language page_size s,
  NoDup (map a_url (st_articles s)) ->
  NoDup (map a_url (st_articles (snd (fetch_from_newsapi E topic language page_size s)))).
Proof.
  intros E topic language page_size s Hd.
  pose proof (fetch_shape E topic language page_size s) as H.
  destruct (fetch_from_newsapi E topic language page_size s) as [r s'].
  destruct H as [added [_ [_ [Hnd _]]]]. exact (Hnd Hd).
Qed.

Lemma fetch_from_newsapi_urls_unique_witness :
  NoDup (map a_url (st_articles urls_state)) /\
  NoDup (map a_url (st_articles (snd (fetch_from_newsapi (env_demo (Some (lit "k")) TransportError)
                                        (lit "science") (lit "en") 5 urls_state)))).
Proof.
  assert (Hd : NoDup (map a_url (st_articles urls_state))).
  { cbn. constructor; [intros [H|[]]; discriminate H|].
    constructor; [intros []|constructor]. }
  split; [exact Hd|]. apply fetch_from_newsapi_urls_unique. exact Hd.
Defined.

(** Without an OpenAI key, [fetch_from_newsapi] stores no article. *)
Theorem fetch_from_newsapi_no_openai_key : forall E topic language page_size s,
  env_set (openai_api_key E) = false ->
  st_articles (snd (fetch_from_newsapi E topic language page_size s)) = st_articles s.
Proof.
  intros E topic language page_size s Hk.
  pose proof (fetch_shape E topic language page_size s) as H.
  destruct (fetch_from_newsapi E topic language page_size s) as [r s'].
  destruct H as [added [Ha [_ [_ [_ [_ Hno]]]]]].
  cbn [snd]. rewrite Ha, (Hno Hk), app_nil_r. reflexivity.
Qed.

Lemma fetch_from_newsapi_no_openai_key_witness :
  env_set (openai_api_key (env_query (fun _ => []))) = false /\
  st_articles (snd (fetch_from_newsapi (env_query (fun _ => [])) (lit "science") (lit "en") 5
                      urls_state)) = st_articles urls_state.
Proof.
  split; [reflexivity|]. apply fetch_from_newsapi_no_openai_key. reflexivity.
Defined.




(** With a current user who has a topic and no NewsAPI key, [refresh_process] flashes the missing-key error, reports 0 new articles and changes nothing. *)
Theorem refresh_process_news_key_missing : forall E users session_user_id s u,
  get_current_user users session_user_id = Some u ->
  parse_topics (u_interests u) <> [] ->
  env_set (news_api_key E) = false ->
  refresh_process E users session_user_id s =
    (RefreshDone (lit "Error during refresh: NEWS_API_KEY missing in environment") 0, s).
Proof.
  intros E users uid s u Hu Ht Hk. unfold refresh_process. rewrite Hu.
  destruct (parse_topics (u_interests u)) as [|t rest]; [contradiction Ht; reflexivity|].
  cbn [refresh_loop]. unfold fetch_from_newsapi. rewrite Hk. reflexivity.
Qed.

Lemma refresh_process_news_key_missing_witness :
  get_current_user users_demo 7 = Some (hd (mkUser 0 [] [] None []) users_demo) /\
  parse_topics (u_interests (hd (mkUser 0 [] [] None []) users_demo)) <> [] /\
  env_set (news_api_key (env_query (fun _ => []))) = false /\
  refresh_process (env_query (fun _ => [])) users_demo 7 urls_state =
    (RefreshDone (lit "Error during refresh: NEWS_API_KEY missing in environment") 0, urls_state).
Proof.
  assert (Hu : get_current_user users_demo 7 = Some (hd (mkUser 0 [] [] None []) users_demo))
    by reflexivity.
  assert (Ht : parse_topics (u_interests (hd (mkUser 0 [] [] None []) users_demo)) <> [])
    by (vm_compute; discriminate).
  split; [exact Hu|]. split; [exact Ht|]. split; [reflexivity|].
  exact (refresh_process_news_key_missing (env_query (fun _ => [])) _ _ urls_state _ Hu Ht eq_refl).
Defined.



Lemma summarize_article_clean_witness :
  env_set (Some (lit "sk")) = true /\
  (fun _ : str => Some (lit "  Point one. - Point two  "))
    (summary_prompt (lit "T") (firstn 6000 (lit "body"))) = Some (lit "  Point one. - Point two  ") /\
  exists summary,
    summarize_article (Some (lit "sk")) (fun _ => Some (lit "  Point one. - Point two  "))
      (lit "T") (lit "body") = Ret summary /\
    strip summary = summary /\ ~ In 8226 summary /\
    py_contains (nl ++ nl ++ lit "-") summary = false.
Proof.
  split; [reflexivity|]. split; [reflexivity|].
  apply (summarize_article_clean _ _ _ _ (lit "  Point one. - Point two  ")); reflexivity.
Defined.

Lemma extract_full_text_long_stripped_witness :
  extract_full_text (env_text (lit " " ++ repeat 97 250)) (lit "u") = Some (repeat 97 250) /\
  (200 <= List.length (repeat 97 250))%nat /\ strip (repeat 97 250) = repeat 97 250.
Proof.
  assert (H : extract_full_text (env_text (lit " " ++ repeat 97 250)) (lit "u") = Some (repeat 97 250))
    by (vm_compute; reflexivity).
  split; [exact H|]. exact (extract_full_text_long_stripped _ _ _ H).
Defined.

Lemma user_article_routes_wf_witness :
  ua_wf (st_user_articles routes_state) /\
  ua_wf (st_user_articles (snd (article_detail (env_text []) 7 2 routes_state))) /\
  ua_wf (st_user_articles (snd (like_article 7 2 routes_state))) /\
  ua_wf (st_user_articles (snd (open_original 7 2 routes_state))) /\
  ua_wf (st_user_articles (snd (rate_article 7 2 (Some (lit "8")) routes_state))) /\
  ua_wf (st_user_articles (snd (save_notes 7 2 (Some (lit "8")) routes_state))).
Proof.
  assert (Hw : ua_wf (st_user_articles routes_state)).
  { split; cbn.
    - constructor; [intros []|constructor].
    - constructor; [|constructor]. constructor; [intros []|constructor]. }
  split; [exact Hw|]. exact (user_article_routes_wf _ _ _ _ _ Hw).
Defined.

Lemma article_routes_not_found_witness :
  article_by_id (st_articles routes_state) 3 = None /\
  article_detail (env_text []) 7 3 routes_state = (Raise NotFound, routes_state) /\
  like_article 7 3 routes_state = (Raise NotFound, routes_state) /\
  open_original 7 3 routes_state = (Raise NotFound, routes_state) /\
  rate_article 7 3 (Some (lit "8")) routes_state = (Raise NotFound, routes_state) /\
  save_notes 7 3 (Some (lit "8")) routes_state = (Raise NotFound, routes_state).
Proof.
  assert (H : article_by_id (st_articles routes_state) 3 = None) by reflexivity.
  split; [exact H|]. exact (article_routes_not_found _ _ _ _ _ H).
Defined.

Lemma article_actions_recorded_witness :
  article_by_id (st_articles routes_state) 2 = Some (article_emb (lit "u2") []) /\
  let old := match find (ua_matches 7 2) (st_user_articles routes_state) with
             | Some ua => ua_action ua
             | None => []
             end in
  let tagged (tag : str) := if existsb (str_eqb tag) old then old else old ++ [tag] in
  (fst (article_detail (env_text []) 7 2 routes_state) =
     Ret (article_emb (lit "u2") [], extract_full_text (env_text []) (lit "u2")) /\
   option_map ua_action (find (ua_matches 7 2)
     (st_user_articles (snd (article_detail (env_text []) 7 2 routes_state)))) =
     Some (tagged (lit "viewed"))) /\
  (fst (like_article 7 2 routes_state) = Ret (RedirectDetail 2 None) /\
   option_map ua_action (find (ua_matches 7 2)
     (st_user_articles (snd (like_article 7 2 routes_state)))) = Some (tagged (lit "liked"))) /\
  (fst (open_original 7 2 routes_state) = Ret (lit "u2") /\
   option_map ua_action (find (ua_matches 7 2)
     (st_user_articles (snd (open_original 7 2 routes_state)))) = Some (tagged (lit "linked"))).
Proof.
  assert (H : article_by_id (st_articles routes_state) 2 = Some (article_emb (lit "u2") []))
    by reflexivity.
  split; [exact H|]. exact (article_actions_recorded (env_text []) 7 2 routes_state _ H).
Defined.


Lemma save_notes_stores_stripped_witness :
  article_by_id (st_articles routes_state) 1 = Some (article_emb (lit "u1") []) /\
  let (res, s') := save_notes 7 1 (Some (lit "  read later ")) routes_state in
  res = Ret (RedirectDetail 1 None) /\
  exists ua,
    find (ua_matches 7 1) (st_user_articles s') = Some ua /\
    ua_notes ua = Some (strip (lit "  read later ")) /\
    ua_rating ua = match find (ua_matches 7 1) (st_user_articles routes_state) with
                   | Some old => ua_rating old | None => None end /\
    ua_action ua = match find (ua_matches 7 1) (st_user_articles routes_state) with
                   | Some old => ua_action old | None => [] end.
Proof.
  assert (H : article_by_id (st_articles routes_state) 1 = Some (article_emb (lit "u1") []))
    by reflexivity.
  split; [exact H|].
  exact (save_notes_stores_stripped 7 1 (Some (lit "  read later ")) routes_state _ H).
Defined.

Lemma parse_topics_clean_witness :
  In (lit "health") (parse_topics (Some (lit "science, health ,, "))) /\
  truthy (lit "health") = true /\ strip (lit "health") = lit "health" /\ ~ In 44 (lit "health").
Proof.
  assert (H : In (lit "health") (parse_topics (Some (lit "science, health ,, "))))
    by (vm_compute; right; left; reflexivity).
  split; [exact H|]. exact (parse_topics_clean _ _ H).
Defined.

Lemma select_topics_round_trip_witness :
  [lit "science"; lit "health"] <> [] /\
  Forall (fun t => truthy t = true /\ strip t = t /\ ~ In 44 t) [lit "science"; lit "health"] /\
  let '(target, flashed, u') :=
    select_topics_post (hd (mkUser 0 [] [] None []) users_demo) [lit "science"; lit "health"] in
  target = lit "/refresh" /\ parse_topics (u_interests u') = [lit "science"; lit "health"].
Proof.
  assert (Hn : [lit "science"; lit "health"] <> []) by discriminate.
  assert (Hf : Forall (fun t => truthy t = true /\ strip t = t /\ ~ In 44 t)
                      [lit "science"; lit "health"]).
  { repeat constructor; vm_compute; try reflexivity;
      intros H; repeat (destruct H as [H|H]; [discriminate H|]); exact H. }
  split; [exact Hn|]. split; [exact Hf|].
  exact (select_topics_round_trip _ _ Hn Hf).
Defined.

Lemma in_py_slice_to : forall (A : Type) k (l : list A) x, In x (py_slice_to k l) -> In x l.
Proof.
  unfold py_slice_to. intros A k l x H.
  destruct (0 <=? k); match type of H with In _ (firstn ?n _) => rewrite <- (firstn_skipn n l), in_app_iff; left; exact H end.
Qed.

(** Every article [retrieve_relevant_articles] returns is one of the stored rows and has a non-empty embedding. *)
Theorem retrieve_returns_stored_articles : forall E arts query top_k a,
  In a (retrieve_relevant_articles E arts query top_k) ->
  In a arts /\ exists e, a_embedding a = Some e /\ emb_truthy e = true.
Proof.
  unfold retrieve_relevant_articles. intros E arts query top_k a H.
  destruct (is_sentinel _); [destruct H|].
  apply in_map_iff in H as [[sim b] [Hb H]]. cbn [snd] in Hb. subst b.
  apply filter_In in H as [H _]. apply in_py_slice_to, in_sort_desc in H.
  unfold score_articles in H. apply in_flat_map in H as [b [Hb H]].
  destruct (a_embedding b) as [e|] eqn:He; [|destruct H].
  destruct (emb_truthy e) eqn:Ht; [|destruct H].
  destruct H as [H|[]]. injection H as _ <-.
  split; [exact Hb|]. exists e. split; [exact He|exact Ht].
Qed.

Lemma retrieve_returns_stored_articles_witness :
  In (article_emb (lit "u1") [1%float])
     (retrieve_relevant_articles (env_query (fun _ => [1%float]))
        [article_emb (lit "u1") [1%float]; article_emb (lit "u2") [(-1)%float]] (lit "q") 3) /\
  In (article_emb (lit "u1") [1%float])
     [article_emb (lit "u1") [1%float]; article_emb (lit "u2") [(-1)%float]] /\
  exists e, a_embedding (article_emb (lit "u1") [1%float]) = Some e /\ emb_truthy e = true.
Proof.
  assert (H : In (article_emb (lit "u1") [1%float])
     (retrieve_relevant_articles (env_query (fun _ => [1%float]))
        [article_emb (lit "u1") [1%float]; article_emb (lit "u2") [(-1)%float]] (lit "q") 3))
    by (vm_compute; left; reflexivity).
  split; [exact H|]. exact (retrieve_returns_stored_articles _ _ _ _ _ H).
Defined.
